(** * Momentum report: status classification and metrics engine

    A shallow embedding of the computational core of [momentum_report.py]
    and [app.py] (the two files carry the same [to_num], [bucket_status]
    and metrics code), followed by the properties of that core.

    Conventions of the embedding.
    - A Python [str] is a list of characters ([list ascii]), a character
      being a code point below 256.  [str.lower], [str.strip] and the
      digits and white space of [float] are modelled as Python has them
      on these code points.
    - A cell of the data frame read with [dtype=str] is either a string or
      the missing value ([pd.isna] holds): [option str], [None] for missing.
    - A Python/NumPy float is one of NaN, the two infinities, or a finite
      value kept as an exact rational; rounding to binary64 and overflow
      are not modelled.  Statements about a finite value therefore either
      involve no arithmetic, or stay within the integers that binary64
      holds exactly, or say that they give the exact value that the code
      then rounds.
    - A point in time is an integer count of nanoseconds; a parsed close
      date is [option Z], [None] for NaT. *)

From Stdlib Require Import List Bool Ascii String ZArith QArith Lia Lqa.
From Stdlib Require Import Permutation.
Import ListNotations.

(* ================================================================== *)
(** * Part I.  The embedding *)
(* ================================================================== *)

(** ** Python strings *)

Module PyStr.

Definition str := list ascii.

(** A string literal of the source. *)
Definition lit (s : string) : str := list_ascii_of_string s.

(** [str.isspace] on one character: TAB, LF, VT, FF, CR, FS, GS, RS,
    US, the space, NEL (133) and the no-break space (160).  These are the
    characters that [str.strip] removes. *)
Definition is_space (c : ascii) : bool :=
  let n := nat_of_ascii c in
  ((9 <=? n) && (n <=? 13) || (28 <=? n) && (n <=? 32) ||
   (n =? 133) || (n =? 160))%nat.

(** [str.lower] on one character: the letters A to Z, and the capital
    letters of Latin-1 (192 to 222, the multiplication sign 215 apart). *)
Definition lower_char (c : ascii) : ascii :=
  let n := nat_of_ascii c in
  if ((65 <=? n) && (n <=? 90) ||
      (192 <=? n) && (n <=? 222) && negb (n =? 215))%nat
  then ascii_of_nat (n + 32) else c.

Definition lower (s : str) : str := map lower_char s.

Fixpoint lstrip (s : str) : str :=
  match s with
  | c :: t => if is_space c then lstrip t else s
  | [] => []
  end.

Definition rstrip (s : str) : str := rev (lstrip (rev s)).

(** [s.strip()] *)
Definition strip (s : str) : str := rstrip (lstrip s).

(** [s.replace(c, <empty>)] for a one-character [c]: every occurrence
    of [c] is dropped. *)
Definition remove_char (c : ascii) (s : str) : str :=
  filter (fun d => negb (Ascii.eqb d c)) s.

Fixpoint str_eqb (a b : str) : bool :=
  match a, b with
  | [], [] => true
  | x :: a', y :: b' => Ascii.eqb x y && str_eqb a' b'
  | _, _ => false
  end.

Fixpoint startswith (k s : str) : bool :=
  match k, s with
  | [], _ => true
  | x :: k', y :: s' => Ascii.eqb x y && startswith k' s'
  | _ :: _, [] => false
  end.

(** [k in s]: [k] occurs in [s] as a contiguous substring. *)
Fixpoint contains (k s : str) : bool :=
  startswith k s ||
  match s with
  | [] => false
  | _ :: t => contains k t
  end.

(** [any(k in s for k in keys)] *)
Definition any_in (keys : list str) (s : str) : bool :=
  existsb (fun k => contains k s) keys.

End PyStr.

Import PyStr.

(** ** Floats *)

Module PyFloat.

(** A float value: NaN, plus or minus infinity, or a finite value. *)
Inductive pyfloat : Type :=
| NaN
| PosInf
| NegInf
| Finite (q : Q).

(** [np.isnan], and [pd.isna] on a float. *)
Definition isnan (f : pyfloat) : bool :=
  match f with NaN => true | _ => false end.

(** [a - b] *)
Definition fsub (a b : pyfloat) : pyfloat :=
  match a, b with
  | NaN, _ | _, NaN => NaN
  | PosInf, PosInf | NegInf, NegInf => NaN
  | PosInf, _ => PosInf
  | NegInf, _ => NegInf
  | Finite _, PosInf => NegInf
  | Finite _, NegInf => PosInf
  | Finite x, Finite y => Finite (x - y)
  end.

Definition Qlt_bool (x y : Q) : bool :=
  match x ?= y with Lt => true | _ => false end.

(** [a < b]; false as soon as one side is NaN. *)
Definition flt (a b : pyfloat) : bool :=
  match a, b with
  | NaN, _ | _, NaN => false
  | _, NegInf => false
  | NegInf, _ => true
  | PosInf, _ => false
  | _, PosInf => true
  | Finite x, Finite y => Qlt_bool x y
  end.

(** [a <= b]; false as soon as one side is NaN. *)
Definition fle (a b : pyfloat) : bool :=
  match a, b with
  | NaN, _ | _, NaN => false
  | NegInf, _ => true
  | _, PosInf => true
  | _, NegInf => false
  | PosInf, _ => false
  | Finite x, Finite y => Qle_bool x y
  end.

(** The two floats denote the same value (NaN taken as one value). *)
Definition same_value (a b : pyfloat) : Prop :=
  match a, b with
  | NaN, NaN | PosInf, PosInf | NegInf, NegInf => True
  | Finite x, Finite y => x == y
  | _, _ => False
  end.

(** *** [float(s)] on a string

    The grammar of the language reference:
    [floatvalue ::= [sign] (floatnumber | "inf" | "infinity" | "nan")],
    [floatnumber ::= number [exponent]],
    [number ::= [digitpart] "." digitpart | digitpart ["."]],
    [digitpart ::= digit (["_"] digit)*],
    [exponent ::= ("e" | "E") [sign] digitpart],
    letters in any case, white space allowed around the whole.
    [None] stands for the [ValueError] raised on any other text. *)

Definition is_digit (c : ascii) : bool :=
  let n := nat_of_ascii c in ((48 <=? n) && (n <=? 57))%nat.

Definition digit_val (c : ascii) : Z := Z.of_nat (nat_of_ascii c - 48).

Definition starts_with_digit (s : str) : bool :=
  match s with
  | d :: _ => is_digit d
  | [] => false
  end.

(** The rest of a digitpart after its first digit: digits, each possibly
    preceded by one underscore.  Returns the accumulated value, the number
    of digits read and the unread text. *)
Fixpoint digitpart_tail (acc cnt : Z) (s : str) : Z * Z * str :=
  match s with
  | c :: t =>
      if is_digit c then digitpart_tail (10 * acc + digit_val c) (cnt + 1) t
      else if Ascii.eqb c "_" && starts_with_digit t then digitpart_tail acc cnt t
      else (acc, cnt, s)
  | [] => (acc, cnt, s)
  end.

Definition digitpart (acc : Z) (s : str) : option (Z * Z * str) :=
  match s with
  | c :: t =>
      if is_digit c then Some (digitpart_tail (10 * acc + digit_val c) 1 t)
      else None
  | [] => None
  end.

(** Returns the digits of the number read as one integer, the count of
    digits after the point, and the unread text. *)
Definition number (s : str) : option (Z * Z * str) :=
  match digitpart 0 s with
  | Some (ip, _, r) =>
      match r with
      | c :: r' =>
          if Ascii.eqb c "." then
            match digitpart ip r' with
            | Some (m, k, r'') => Some (m, k, r'')
            | None => Some (ip, 0%Z, r')
            end
          else Some (ip, 0%Z, r)
      | [] => Some (ip, 0%Z, r)
      end
  | None =>
      match s with
      | c :: r' => if Ascii.eqb c "." then digitpart 0 r' else None
      | [] => None
      end
  end.

Definition split_sign (s : str) : bool * str :=
  match s with
  | "-"%char :: r => (true, r)
  | "+"%char :: r => (false, r)
  | _ => (false, s)
  end.

(** The exponent part, which must use up the text. *)
Definition exponent (s : str) : option Z :=
  match s with
  | [] => Some 0%Z
  | c :: t =>
      if Ascii.eqb (lower_char c) "e" then
        let (neg, t') := split_sign t in
        match digitpart 0 t' with
        | Some (x, _, []) => Some (if neg then (- x)%Z else x)
        | _ => None
        end
      else None
  end.

(** The value [m * 10^e], signed. *)
Definition dec_value (neg : bool) (m e : Z) : Q :=
  let q := if (0 <=? e)%Z then inject_Z (m * 10 ^ e)
           else m # Z.to_pos (10 ^ (- e)) in
  if neg then - q else q.

(** [float] removes the white space around the text before it reads
    it.  [to_num] hands over a text that [str.strip] has already
    stripped, so in this program that step finds nothing to remove. *)
Definition py_float (s0 : str) : option pyfloat :=
  let s := strip s0 in
  let (neg, r) := split_sign s in
  let lr := lower r in
  if str_eqb lr (lit "inf") || str_eqb lr (lit "infinity")
  then Some (if neg then NegInf else PosInf)
  else if str_eqb lr (lit "nan") then Some NaN
  else match number r with
       | Some (m, k, r') =>
           match exponent r' with
           | Some e => Some (Finite (dec_value neg m (e - k)))
           | None => None
           end
       | None => None
       end.

End PyFloat.

Import PyFloat.

(** ** Field normalizer *)

(** The text handed to [float] by [to_num]. *)
Definition residual (x : str) : str :=
  strip (remove_char "," (remove_char "$" x)).

Definition to_num (x : option str) : pyfloat :=
  match x with
  | None => NaN
  | Some x =>
      let s := residual x in
      match py_float s with
      | Some f => f
      | None => NaN
      end
  end.

(** ** Status classifier *)

Inductive Bucket : Type := Active | Pending | Sold | Other | Unknown.

Definition Bucket_eqb (a b : Bucket) : bool :=
  match a, b with
  | Active, Active | Pending, Pending | Sold, Sold
  | Other, Other | Unknown, Unknown => true
  | _, _ => false
  end.

Definition ACTIVE_KEYS : list str :=
  [lit "active"; lit "coming soon"; lit "back on market"; lit "a/"].
Definition PENDING_KEYS : list str :=
  [lit "pending"; lit "under contract"; lit "a/i"; lit "accepting backup"].
Definition SOLD_KEYS : list str :=
  [lit "closed"; lit "sold"].

(** The list written in place in the active rule. *)
Definition NOT_ACTIVE_KEYS : list str :=
  [lit "under contract"; lit "pending"].

Definition bucket_status (x : option str) : Bucket :=
  match x with
  | None => Unknown
  | Some s0 =>
      let s := lower (strip s0) in
      if any_in ACTIVE_KEYS s && negb (any_in NOT_ACTIVE_KEYS s) then Active
      else if any_in PENDING_KEYS s then Pending
      else if any_in SOLD_KEYS s then Sold
      else if str_eqb s (lit "active") then Active
      else Other
  end.

(** The classifier as the rule list reads once the exact-match rule
    (the fifth) is struck out; used for the comparison with
    [bucket_status]. *)
Definition bucket_status_without_rule5 (x : option str) : Bucket :=
  match x with
  | None => Unknown
  | Some s0 =>
      let s := lower (strip s0) in
      if any_in ACTIVE_KEYS s && negb (any_in NOT_ACTIVE_KEYS s) then Active
      else if any_in PENDING_KEYS s then Pending
      else if any_in SOLD_KEYS s then Sold
      else Other
  end.

(** ** The data frame and the metrics *)

Module Report.

(** One row of the frame read with [dtype=str].  The close date is kept
    as the outcome of [pd.to_datetime(..., errors="coerce")] on the
    "Close Date" cell: a time in nanoseconds, or [None] for NaT.  The
    "Seller Concessions" cell is only meaningful when the frame has that
    column. *)
Record Row : Type := {
  Mls_Status : option str;
  Close_Date : option Z;
  List_Price : option str;
  Close_Price : option str;
  Seller_Concessions : option str
}.

Record DataFrame : Type := {
  rows : list Row;
  has_concessions : bool   (* "Seller Concessions" in df.columns *)
}.

(** *** Derived columns *)

Definition _bucket (r : Row) : Bucket := bucket_status (Mls_Status r).
Definition _close_date (r : Row) : option Z := Close_Date r.
Definition _list_price (r : Row) : pyfloat := to_num (List_Price r).
Definition _close_price (r : Row) : pyfloat := to_num (Close_Price r).
Definition _concessions (df : DataFrame) (r : Row) : pyfloat :=
  if has_concessions df then to_num (Seller_Concessions r)
  else Finite 0.

(** *** Sold window *)

Definition ns_per_day : Z := 86400 * 1000000000.

(** [today - timedelta(days=days)] *)
Definition window_start (today days : Z) : Z := today - days * ns_per_day.

(** [(df["_bucket"] == "Sold") & (df["_close_date"] >= window_start)];
    a comparison with NaT is false. *)
Definition is_sold_window (today days : Z) (r : Row) : bool :=
  Bucket_eqb (_bucket r) Sold &&
  match _close_date r with
  | Some d => (window_start today days <=? d)%Z
  | None => false
  end.

(** *** Counts *)

(** [int(mask.sum())] *)
Definition mask_sum (mask : Row -> bool) (l : list Row) : Z :=
  fold_right (fun r acc => ((if mask r then 1 else 0) + acc)%Z) 0%Z l.

Definition is_active (r : Row) : bool := Bucket_eqb (_bucket r) Active.
Definition is_pending (r : Row) : bool := Bucket_eqb (_bucket r) Pending.

Definition active_count (df : DataFrame) : Z := mask_sum is_active (rows df).
Definition pending_count (df : DataFrame) : Z := mask_sum is_pending (rows df).
Definition sold_window_count (df : DataFrame) (today days : Z) : Z :=
  mask_sum (is_sold_window today days) (rows df).

(** *** Months of inventory *)

(** [(sold_window_count / 3.0) + pending_count] *)
Definition den (df : DataFrame) (today days : Z) : Q :=
  inject_Z (sold_window_count df today days) / 3 + inject_Z (pending_count df).

(** [(active_count / den) if den > 0 else np.nan] *)
Definition moi (df : DataFrame) (today days : Z) : pyfloat :=
  if Qlt_bool 0 (den df today days)
  then Finite (inject_Z (active_count df) / den df today days)
  else NaN.

(** *** Ranges *)

Definition dropna (l : list pyfloat) : list pyfloat :=
  filter (fun f => negb (isnan f)) l.

Definition fmin (a b : pyfloat) : pyfloat := if flt b a then b else a.
Definition fmax (a b : pyfloat) : pyfloat := if flt a b then b else a.

(** [float(series.min()) if not series.empty else np.nan] *)
Definition min_or_nan (l : list pyfloat) : pyfloat :=
  match l with
  | [] => NaN
  | x :: t => fold_left fmin t x
  end.

(** [float(series.max()) if not series.empty else np.nan] *)
Definition max_or_nan (l : list pyfloat) : pyfloat :=
  match l with
  | [] => NaN
  | x :: t => fold_left fmax t x
  end.

Definition active_prices (df : DataFrame) : list pyfloat :=
  dropna (map _list_price (filter is_active (rows df))).
Definition pending_prices (df : DataFrame) : list pyfloat :=
  dropna (map _list_price (filter is_pending (rows df))).

(** [df["_close_price"] - (df["_concessions"] if has_concessions else 0)] *)
Definition net_price (df : DataFrame) (r : Row) : pyfloat :=
  fsub (_close_price r)
       (if has_concessions df then _concessions df r else Finite 0).

Definition sold_net_prices (df : DataFrame) (today days : Z) : list pyfloat :=
  dropna (map (net_price df) (filter (is_sold_window today days) (rows df))).

Definition active_min df := min_or_nan (active_prices df).
Definition active_max df := max_or_nan (active_prices df).
Definition pending_min df := min_or_nan (pending_prices df).
Definition pending_max df := max_or_nan (pending_prices df).
Definition sold_net_min df today days := min_or_nan (sold_net_prices df today days).
Definition sold_net_max df today days := max_or_nan (sold_net_prices df today days).

End Report.

Import Report.

(** ** Vocabulary of the statements *)

(** A key is solid when it is not empty and neither begins nor ends with
    white space; every keyword of the three key lists is. *)
Definition solid (k : str) : bool :=
  match k, rev k with
  | c :: _, d :: _ => negb (is_space c) && negb (is_space d)
  | _, _ => false
  end.

(** The test under which the report prints a range:
    [not (np.isnan(lo) or np.isnan(hi))]. *)
Definition range_defined (lo hi : pyfloat) : bool :=
  negb (isnan lo || isnan hi).

(** The plain close prices of the rows in the sold window, missing
    values dropped: the sample whose range the net-price range is
    compared with. *)
Definition sold_close_prices (df : DataFrame) (today days : Z) : list pyfloat :=
  dropna (map _close_price (filter (is_sold_window today days) (rows df))).

(** A sample without missing values, as [dropna] leaves it. *)
Definition no_nan (l : list pyfloat) : Prop :=
  Forall (fun f => isnan f = false) l.

(** The characters that occur in some text accepted by [float]: digits,
    signs, the point, the underscore, and the letters of the exponent
    mark and of "infinity" and "nan" in either case. *)
Definition numeric_char (c : ascii) : bool :=
  is_digit c || existsb (Ascii.eqb (lower_char c)) (lit "+-._einfatyn").

(** A parsing step that returns the unread text [r] of [s] has read a
    prefix made of numeric characters. *)
Definition reads_numeric (s r : str) : Prop :=
  exists p, s = p ++ r /\ forallb numeric_char p = true.

(** ** Required columns *)

Module Columns.

Definition REQUIRED_COLUMNS : list str :=
  [lit "Mls Status"; lit "Close Date"; lit "List Price"; lit "Close Price"].

(** [c in df.columns] *)
Definition in_columns (c : str) (columns : list str) : bool :=
  existsb (str_eqb c) columns.

(** [[c for c in REQUIRED_COLUMNS if c not in df.columns]] *)
Definition missing (columns : list str) : list str :=
  filter (fun c => negb (in_columns c columns)) REQUIRED_COLUMNS.

(** What the entry point does with the header: stop with the list of
    missing names, or go on, with the flag for the optional concessions
    column. *)
Inductive header_check : Type :=
| Stop (missing_columns : list str)
| Go (has_concessions : bool).

Definition check_header (columns : list str) : header_check :=
  match missing columns with
  | [] => Go (in_columns (lit "Seller Concessions") columns)
  | m => Stop m
  end.

End Columns.

(** ** Days in MLS *)

Module Dom.

(** The two optional day-count columns of the frame, each absent
    ([None]) or holding one cell per row. *)
Record DomColumns : Type := {
  DaysInMLS : option (list (option str));
  Days_in_MLS : option (list (option str))
}.

(** [astype(str)] on a cell: the missing value becomes the text "nan". *)
Definition astype_str (c : option str) : str :=
  match c with
  | Some s => s
  | None => lit "nan"
  end.

(** [get_dom_series], for a frame of [n] rows.  [to_numeric] is the
    reading of one text by [pd.to_numeric(..., errors="coerce")], a
    function of the pandas library that is taken as given.  The [except]
    branch of the source is not reached: on a column of texts neither
    [astype(str)] nor [str.replace] raises. *)
Definition get_dom_series (to_numeric : str -> pyfloat) (n : nat)
                          (dc : DomColumns) : list pyfloat :=
  let dom_col :=
    match DaysInMLS dc with
    | Some col => Some col
    | None =>
        match Days_in_MLS dc with
        | Some col => Some col
        | None => None
        end
    end in
  match dom_col with
  | None => repeat NaN n
  | Some col =>
      map (fun c => to_numeric (remove_char "," (astype_str c))) col
  end.

(** [df.loc[mask, column]]: the values of a column at the rows where the
    mask holds. *)
Definition loc_mask (mask : Row -> bool) (l : list Row)
                    (column : list pyfloat) : list pyfloat :=
  map snd (filter (fun p => mask (fst p)) (combine l column)).

(** [a + b] *)
Definition fadd (a b : pyfloat) : pyfloat :=
  match a, b with
  | NaN, _ | _, NaN => NaN
  | PosInf, NegInf | NegInf, PosInf => NaN
  | PosInf, _ | _, PosInf => PosInf
  | NegInf, _ | _, NegInf => NegInf
  | Finite x, Finite y => Finite (x + y)
  end.

(** [a / n] for a positive count [n]. *)
Definition fdiv_count (a : pyfloat) (n : nat) : pyfloat :=
  match a with
  | Finite q => Finite (q / inject_Z (Z.of_nat n))
  | _ => a
  end.

(** [float(series.mean()) if not series.empty else np.nan] *)
Definition mean_or_nan (l : list pyfloat) : pyfloat :=
  match l with
  | [] => NaN
  | _ => fdiv_count (fold_left fadd l (Finite 0)) (List.length l)
  end.

Fixpoint insert_sorted (x : pyfloat) (l : list pyfloat) : list pyfloat :=
  match l with
  | [] => [x]
  | y :: t => if fle x y then x :: l else y :: insert_sorted x t
  end.

Definition sort_values (l : list pyfloat) : list pyfloat :=
  fold_right insert_sorted [] l.

(** [float(series.median()) if not series.empty else np.nan]: the middle
    value of the sorted sample, or the mean of the two middle values. *)
Definition median_or_nan (l : list pyfloat) : pyfloat :=
  match l with
  | [] => NaN
  | _ =>
      let s := sort_values l in
      let n := List.length s in
      if Nat.even n
      then fdiv_count (fadd (nth (n / 2 - 1) s NaN) (nth (n / 2) s NaN)) 2
      else nth (n / 2) s NaN
  end.

(** [df["_dom"]] *)
Definition _dom (to_numeric : str -> pyfloat) (df : DataFrame)
                (dc : DomColumns) : list pyfloat :=
  get_dom_series to_numeric (List.length (rows df)) dc.

(** [df.loc[is_sold_window, "_dom"].dropna()] *)
Definition dom_series (to_numeric : str -> pyfloat) (df : DataFrame)
                      (dc : DomColumns) (today days : Z) : list pyfloat :=
  dropna (loc_mask (is_sold_window today days) (rows df)
                   (_dom to_numeric df dc)).

Definition avg_dom to_numeric df dc today days : pyfloat :=
  mean_or_nan (dom_series to_numeric df dc today days).
Definition median_dom to_numeric df dc today days : pyfloat :=
  median_or_nan (dom_series to_numeric df dc today days).

End Dom.

Import Columns Dom.

(** ** Further vocabulary *)

(** The integer written by a run of digits, continuing from [acc]. *)
Definition digits_value (acc : Z) (ds : str) : Z :=
  fold_left (fun a c => (10 * a + digit_val c)%Z) ds acc.

(** A character of a plain amount: a digit, the dollar sign or the
    thousands separator. *)
Definition amount_char (c : ascii) : bool :=
  is_digit c || Ascii.eqb c "$" || Ascii.eqb c ",".

(** The text [r] ends a run of digits: it is empty, or begins with a
    character that is neither a digit nor the underscore. *)
Definition ends_digits (r : str) : bool :=
  match r with
  | [] => true
  | c :: _ => negb (is_digit c) && negb (Ascii.eqb c "_")
  end.

(** *** The texts that [float] accepts, as the language reference
    writes them

    This is the grammar itself, written as relations and independent of
    the functions of [PyFloat]; the parser is compared with it. *)

(** [(["_"] digit)*]: what may follow the first digit of a digitpart. *)
Inductive tail_text : str -> Prop :=
| tt_end : tail_text []
| tt_digit (d : ascii) (r : str) :
    is_digit d = true -> tail_text r -> tail_text (d :: r)
| tt_under (d : ascii) (r : str) :
    is_digit d = true -> tail_text r -> tail_text ("_"%char :: d :: r).

(** [digitpart ::= digit (["_"] digit)*] *)
Inductive digitpart_text : str -> Prop :=
| dp_intro (d : ascii) (r : str) :
    is_digit d = true -> tail_text r -> digitpart_text (d :: r).

(** The integer written by the digits of a text, underscores skipped,
    and the number of those digits. *)
Definition numeral_value (s : str) : Z := digits_value 0 (filter is_digit s).
Definition digit_count (s : str) : Z :=
  Z.of_nat (List.length (filter is_digit s)).

(** [number ::= [digitpart] "." digitpart | digitpart ["."]], with the
    integer written by all its digits and the number of digits after the
    point. *)
Inductive number_text : str -> Z -> Z -> Prop :=
| nt_int (ip : str) :
    digitpart_text ip -> number_text ip (numeral_value ip) 0
| nt_int_point (ip : str) :
    digitpart_text ip ->
    number_text (ip ++ ["."%char]) (numeral_value ip) 0
| nt_frac (fp : str) :
    digitpart_text fp ->
    number_text ("."%char :: fp) (numeral_value fp) (digit_count fp)
| nt_both (ip fp : str) :
    digitpart_text ip -> digitpart_text fp ->
    number_text (ip ++ "."%char :: fp) (numeral_value (ip ++ fp))
                (digit_count fp).

(** [[sign]], with whether it negates. *)
Inductive sign_text : str -> bool -> Prop :=
| st_none : sign_text [] false
| st_plus : sign_text ["+"%char] false
| st_minus : sign_text ["-"%char] true.

(** [[exponent]], [exponent ::= ("e" | "E") [sign] digitpart], with the
    power of ten it stands for. *)
Inductive exponent_text : str -> Z -> Prop :=
| et_none : exponent_text [] 0
| et_some (c : ascii) (sg : str) (neg : bool) (ds : str) :
    lower_char c = "e"%char -> sign_text sg neg -> digitpart_text ds ->
    exponent_text (c :: sg ++ ds)
                  (if neg then (- numeral_value ds)%Z else numeral_value ds).

(** [floatvalue ::= [sign] (floatnumber | infinity | nan)], with the
    value it denotes: an infinity, NaN, or the exact decimal value (which
    [float] then rounds to binary64). *)
Inductive float_text : str -> pyfloat -> Prop :=
| ft_inf (sg : str) (neg : bool) (w : str) :
    sign_text sg neg ->
    lower w = lit "inf" \/ lower w = lit "infinity" ->
    float_text (sg ++ w) (if neg then NegInf else PosInf)
| ft_nan (sg : str) (neg : bool) (w : str) :
    sign_text sg neg -> lower w = lit "nan" ->
    float_text (sg ++ w) NaN
| ft_num (sg : str) (neg : bool) (n : str) (m k : Z) (x : str) (e : Z) :
    sign_text sg neg -> number_text n m k -> exponent_text x e ->
    float_text (sg ++ n ++ x) (Finite (dec_value neg m (e - k))).

(** [l] is in ascending order for [fle]. *)
Fixpoint ascending (l : list pyfloat) : bool :=
  match l with
  | x :: (y :: _) as t => fle x y && ascending t
  | _ => true
  end.

(* ================================================================== *)
(** * Part II.  Properties *)
(* ================================================================== *)

(** ** Strings *)

Section StrFacts.

Lemma str_eqb_eq (a b : str) : str_eqb a b = true <-> a = b.
Proof.
  revert b; induction a as [|x a IH]; intros [|y b]; simpl;
    try (split; [discriminate | congruence]); try tauto.
  rewrite andb_true_iff, Ascii.eqb_eq, IH.
  split; [intros [-> ->]; reflexivity | intros [= -> ->]; auto].
Qed.

Lemma startswith_app (k s : str) :
  startswith k s = true <-> exists b, s = k ++ b.
Proof.
  revert s; induction k as [|x k IH]; intros s; simpl.
  - split; [exists s; reflexivity | reflexivity].
  - destruct s as [|y s].
    + split; [discriminate | intros [b H]; discriminate].
    + rewrite andb_true_iff, Ascii.eqb_eq, IH. split.
      * intros [-> [b ->]]. exists b; reflexivity.
      * intros [b [= -> ->]]. split; [reflexivity | exists b; reflexivity].
Qed.

(** [k in s] holds exactly when [s] splits around an occurrence of [k]. *)
Lemma contains_app (k s : str) :
  contains k s = true <-> exists a b, s = a ++ k ++ b.
Proof.
  induction s as [|y s IH]; simpl.
  - rewrite orb_false_r, startswith_app. split.
    + intros [b H]. exists [], b. exact H.
    + intros [a [b H]]. destruct a; simpl in H.
      * exists b; exact H.
      * discriminate.
  - rewrite orb_true_iff, startswith_app, IH. split.
    + intros [[b H] | [a [b H]]].
      * exists [], b; exact H.
      * exists (y :: a), b; simpl; rewrite H; reflexivity.
    + intros [a [b H]]. destruct a as [|z a]; simpl in H.
      * left; exists b; exact H.
      * right. injection H as _ H. exists a, b; exact H.
Qed.

Lemma contains_trans (a b c : str) :
  contains a b = true -> contains b c = true -> contains a c = true.
Proof.
  rewrite !contains_app. intros [p [q ->]] [u [v ->]].
  exists (u ++ p), (q ++ v). now rewrite <- !app_assoc.
Qed.

Lemma lstrip_suffix (s : str) : exists a, s = a ++ lstrip s.
Proof.
  induction s as [|c s [a IH]]; simpl.
  - exists []; reflexivity.
  - destruct (is_space c).
    + exists (c :: a); simpl; congruence.
    + exists []; reflexivity.
Qed.

Lemma rstrip_prefix (s : str) : exists b, s = rstrip s ++ b.
Proof.
  unfold rstrip. destruct (lstrip_suffix (rev s)) as [a H].
  exists (rev a). rewrite <- rev_app_distr, <- H. now rewrite rev_involutive.
Qed.

Lemma strip_infix (s : str) : exists a b, s = a ++ strip s ++ b.
Proof.
  unfold strip. destruct (lstrip_suffix s) as [a Ha].
  destruct (rstrip_prefix (lstrip s)) as [b Hb].
  exists a, b. now rewrite <- Hb.
Qed.

(** Stripping only removes characters: an occurrence in the stripped
    string is an occurrence in the string. *)
Lemma contains_strip_inv (k s : str) :
  contains k (strip s) = true -> contains k s = true.
Proof.
  rewrite !contains_app. intros [p [q H]].
  destruct (strip_infix s) as [a [b Hs]].
  exists (a ++ p), (q ++ b). rewrite Hs at 1. rewrite H.
  now rewrite <- !app_assoc.
Qed.

Lemma lstrip_keeps (c : ascii) (k b a : str) :
  is_space c = false ->
  exists a', lstrip (a ++ (c :: k) ++ b) = a' ++ (c :: k) ++ b.
Proof.
  intros Hc. induction a as [|x a [a' IH]]; simpl.
  - rewrite Hc. exists []; reflexivity.
  - destruct (is_space x).
    + exists a'; exact IH.
    + exists (x :: a); reflexivity.
Qed.

Lemma solid_ends (k : str) :
  solid k = true ->
  exists c k' d k'', k = c :: k' /\ rev k = d :: k'' /\
                     is_space c = false /\ is_space d = false.
Proof.
  unfold solid. destruct k as [|c k']; [discriminate|].
  destruct (rev (c :: k')) as [|d k'']; [discriminate|].
  rewrite andb_true_iff, !negb_true_iff. intros [Hc Hd].
  exists c, k', d, k''. auto.
Qed.

(** An occurrence of a solid key survives stripping. *)
Lemma contains_strip (k s : str) :
  solid k = true -> contains k s = true -> contains k (strip s) = true.
Proof.
  intros Hk. destruct (solid_ends k Hk) as (c & k' & d & k'' & Ek & Er & Hc & Hd).
  rewrite !contains_app. intros [a [b ->]]. unfold strip, rstrip.
  rewrite Ek. destruct (lstrip_keeps c k' b a Hc) as [a' ->].
  rewrite <- Ek. rewrite !rev_app_distr, <- app_assoc, Er.
  destruct (lstrip_keeps d k'' (rev a') (rev b) Hd) as [b' ->].
  rewrite <- Er. rewrite !rev_app_distr, !rev_involutive, <- app_assoc.
  exists a', (rev b'). reflexivity.
Qed.

Lemma is_space_lower_char (c : ascii) : is_space (lower_char c) = is_space c.
Proof.
  destruct c as [[] [] [] [] [] [] [] []]; reflexivity.
Qed.

Lemma lower_lstrip (s : str) : lower (lstrip s) = lstrip (lower s).
Proof.
  induction s as [|c s IH]; simpl; [reflexivity|].
  rewrite is_space_lower_char. destruct (is_space c); [exact IH | reflexivity].
Qed.

(** On ASCII text lower-casing and stripping commute. *)
Lemma lower_strip (s : str) : lower (strip s) = strip (lower s).
Proof.
  unfold strip, rstrip, lower.
  rewrite map_rev. fold (lower (lstrip (rev (lstrip s)))).
  rewrite lower_lstrip. unfold lower. rewrite map_rev.
  fold (lower (lstrip s)). now rewrite lower_lstrip.
Qed.

(** What the classifier looks at, seen from the lower-cased input. *)
Lemma normalised_contains (k s : str) :
  solid k = true ->
  contains k (lower (strip s)) = contains k (lower s).
Proof.
  intros Hk. rewrite lower_strip.
  destruct (contains k (lower s)) eqn:E.
  - now apply contains_strip.
  - destruct (contains k (strip (lower s))) eqn:E'; [|reflexivity].
    apply contains_strip_inv in E'. congruence.
Qed.

End StrFacts.


(** ** Status classifier *)

Section ClassifierFacts.

Lemma any_in_true (keys : list str) (s : str) :
  any_in keys s = true <-> exists k, In k keys /\ contains k s = true.
Proof. unfold any_in. apply existsb_exists. Qed.

Lemma any_in_false (keys : list str) (s : str) :
  any_in keys s = false <-> forall k, In k keys -> contains k s = false.
Proof.
  unfold any_in. rewrite <- not_true_iff_false, existsb_exists. split.
  - intros H k Hk. apply not_true_iff_false. intros E. apply H. eauto.
  - intros H [k [Hk E]]. rewrite (H k Hk) in E. discriminate.
Qed.

(** A string carrying "pending" or "under contract" fails the negative
    check of the active rule and is taken by the pending rule. *)
Lemma pending_marker_wins (s : str) :
  any_in NOT_ACTIVE_KEYS (lower (strip s)) = true ->
  bucket_status (Some s) = Pending.
Proof.
  intros H. unfold bucket_status. cbv zeta. rewrite H.
  rewrite andb_false_r.
  assert (Hp : any_in PENDING_KEYS (lower (strip s)) = true).
  { apply any_in_true in H. destruct H as [k [Hk E]].
    apply any_in_true. exists k. split; [|exact E].
    simpl in Hk |- *. tauto. }
  now rewrite Hp.
Qed.

(** The exact-match test of rule 5 can only succeed on a string that the
    active rule has already accepted. *)
Lemma rule5_shadowed (t : str) :
  str_eqb t (lit "active") = true ->
  any_in ACTIVE_KEYS t && negb (any_in NOT_ACTIVE_KEYS t) = true.
Proof. intros H. apply str_eqb_eq in H. subst t. reflexivity. Qed.

End ClassifierFacts.

(** Names a key of the list at hand as the one that occurs, and moves the
    occurrence from the normalised status to the lower-cased input. *)
Ltac key_occurs k :=
  exists k; split;
  [ simpl; tauto | rewrite normalised_contains by reflexivity ].

(** C1 (as stated, refuted).  The empty string is a string, not a missing
    value: the test [pd.isna] does not hold for it, no keyword occurs in
    it, and the classifier answers [Other], not [Unknown]. *)
Lemma C1_empty_string_is_other :
  bucket_status (Some (lit EmptyString)) = Other /\
  bucket_status (Some (lit EmptyString)) <> Unknown.
Proof. split; [reflexivity | discriminate]. Qed.

(** C1 (amended).  The classifier answers [Unknown] exactly on the missing
    value, and that test comes before every keyword rule; every string
    goes through the keyword rules and ends in one of the four other
    buckets, the empty string (and any string of white space only) in
    [Other]. *)
Theorem C1_unknown_iff_missing :
  (forall x : option str, bucket_status x = Unknown <-> x = None) /\
  (forall s : str, strip s = [] -> bucket_status (Some s) = Other).
Proof.
  split.
  - intros [s|]; simpl; [|tauto].
    split; [|discriminate].
    repeat match goal with |- context [if ?b then _ else _] => destruct b end;
      discriminate.
  - intros s H. unfold bucket_status. rewrite H. reflexivity.
Qed.

Lemma C1_witness :
  strip (lit "  ") = [] /\ bucket_status (Some (lit "  ")) = Other /\
  (bucket_status None = Unknown <-> @None str = None).
Proof.
  split; [reflexivity|]. split.
  - apply (proj2 C1_unknown_iff_missing (lit "  ")). reflexivity.
  - apply (proj1 C1_unknown_iff_missing None).
Defined.

(** C5.  A status that contains "active" and also "pending" or
    "under contract", in any letter case, is classified [Pending] and
    not [Active]. *)
Theorem C5_compound_active_is_pending (s : str) :
  contains (lit "active") (lower s) = true ->
  contains (lit "pending") (lower s) = true \/
  contains (lit "under contract") (lower s) = true ->
  bucket_status (Some s) = Pending /\ bucket_status (Some s) <> Active.
Proof.
  intros _ H.
  assert (E : bucket_status (Some s) = Pending).
  { apply pending_marker_wins. apply any_in_true.
    destruct H as [H|H]; [key_occurs (lit "pending") | key_occurs (lit "under contract")];
      exact H. }
  rewrite E. split; [reflexivity | discriminate].
Qed.

Lemma C5_witness :
  contains (lit "active") (lower (lit "Active/Under Contract")) = true /\
  bucket_status (Some (lit "Active/Under Contract")) = Pending.
Proof.
  split; [reflexivity|].
  apply (C5_compound_active_is_pending (lit "Active/Under Contract"));
    [reflexivity | right; reflexivity].
Defined.

(** C9.  Striking the exact-match rule (rule 5) out of the classifier
    changes no answer: on every input the two classifiers agree. *)
Theorem C9_rule5_is_redundant (x : option str) :
  bucket_status_without_rule5 x = bucket_status x.
Proof.
  destruct x as [s|]; [|reflexivity].
  unfold bucket_status, bucket_status_without_rule5. cbv zeta.
  destruct (any_in ACTIVE_KEYS (lower (strip s)) &&
            negb (any_in NOT_ACTIVE_KEYS (lower (strip s)))) eqn:E2;
    [reflexivity|].
  destruct (any_in PENDING_KEYS (lower (strip s))); [reflexivity|].
  destruct (any_in SOLD_KEYS (lower (strip s))); [reflexivity|].
  destruct (str_eqb (lower (strip s)) (lit "active")) eqn:E5; [|reflexivity].
  apply rule5_shadowed in E5. congruence.
Qed.

(** C10.  A status that contains "a/i", in any letter case, and neither
    "pending" nor "under contract" is classified [Active]: the active key
    "a/" occurs inside "a/i", so the active rule answers first. *)
Theorem C10_a_slash_i_alone_is_active (s : str) :
  contains (lit "a/i") (lower s) = true ->
  contains (lit "pending") (lower s) = false ->
  contains (lit "under contract") (lower s) = false ->
  bucket_status (Some s) = Active /\ bucket_status (Some s) <> Pending.
Proof.
  intros Hai Hp Huc.
  assert (Ha : any_in ACTIVE_KEYS (lower (strip s)) = true).
  { apply any_in_true. key_occurs (lit "a/").
    apply contains_trans with (b := lit "a/i"); [reflexivity | exact Hai]. }
  assert (Hn : any_in NOT_ACTIVE_KEYS (lower (strip s)) = false).
  { apply any_in_false. intros k [<-|[<-|[]]];
      rewrite normalised_contains by reflexivity; assumption. }
  unfold bucket_status. cbv zeta. rewrite Ha, Hn. simpl.
  split; [reflexivity | discriminate].
Qed.

Lemma C10_witness :
  contains (lit "a/i") (lower (lit "A/I")) = true /\
  bucket_status (Some (lit "A/I")) = Active.
Proof.
  split; [reflexivity|].
  apply (C10_a_slash_i_alone_is_active (lit "A/I")); reflexivity.
Defined.


(** ** Floats *)

Section FloatFacts.

Lemma Qlt_bool_iff (x y : Q) : Qlt_bool x y = true <-> x < y.
Proof.
  unfold Qlt_bool. rewrite Qlt_alt.
  destruct (x ?= y); split; congruence.
Qed.

Lemma Qlt_bool_false (x y : Q) : Qlt_bool x y = false <-> y <= x.
Proof.
  rewrite <- not_true_iff_false, Qlt_bool_iff. split.
  - apply Qnot_lt_le.
  - apply Qle_not_lt.
Qed.

Lemma fsub_zero_r (x : pyfloat) : fsub x (Finite 0) = x.
Proof.
  destruct x as [| | |[n d]]; try reflexivity.
  simpl. f_equal. unfold Qminus, Qplus, Qopp. simpl.
  f_equal; [lia | apply Pos.mul_1_r].
Qed.

(** A difference is NaN exactly when an operand is NaN or both operands
    are the same infinity. *)
Lemma fsub_isnan (a b : pyfloat) :
  isnan (fsub a b) = true <->
  isnan a = true \/ isnan b = true \/
  (a = PosInf /\ b = PosInf) \/ (a = NegInf /\ b = NegInf).
Proof.
  destruct a, b; simpl; intuition (try discriminate; try congruence).
Qed.

Lemma fle_refl (a : pyfloat) : isnan a = false -> fle a a = true.
Proof.
  destruct a; simpl; try reflexivity; try discriminate.
  intros _. apply Qle_bool_iff. apply Qle_refl.
Qed.

Lemma fle_trans (a b c : pyfloat) :
  fle a b = true -> fle b c = true -> fle a c = true.
Proof.
  destruct a, b, c; simpl; try reflexivity; try discriminate.
  rewrite !Qle_bool_iff. apply Qle_trans.
Qed.

Lemma flt_false_fle (a b : pyfloat) :
  isnan a = false -> isnan b = false -> flt a b = false -> fle b a = true.
Proof.
  destruct a, b; simpl; try reflexivity; try discriminate.
  intros _ _. rewrite Qlt_bool_false, Qle_bool_iff. auto.
Qed.

Lemma flt_fle (a b : pyfloat) : flt a b = true -> fle a b = true.
Proof.
  destruct a, b; simpl; try reflexivity; try discriminate.
  rewrite Qlt_bool_iff, Qle_bool_iff. apply Qlt_le_weak.
Qed.

End FloatFacts.

(** ** Minimum and maximum of a sample *)

Section RangeFacts.

Lemma dropna_no_nan (l : list pyfloat) : no_nan (dropna l).
Proof.
  unfold no_nan, dropna. apply Forall_forall. intros f Hf.
  apply filter_In in Hf. destruct Hf as [_ Hf].
  now apply negb_true_iff in Hf.
Qed.

Lemma fmin_le_l (a b : pyfloat) :
  isnan a = false -> isnan b = false ->
  fle (fmin a b) a = true /\ isnan (fmin a b) = false.
Proof.
  intros Ha Hb. unfold fmin. destruct (flt b a) eqn:E.
  - split; [now apply flt_fle | exact Hb].
  - split; [now apply fle_refl | exact Ha].
Qed.

Lemma fmax_ge_l (a b : pyfloat) :
  isnan a = false -> isnan b = false ->
  fle a (fmax a b) = true /\ isnan (fmax a b) = false.
Proof.
  intros Ha Hb. unfold fmax. destruct (flt a b) eqn:E.
  - split; [now apply flt_fle | exact Hb].
  - split; [now apply fle_refl | exact Ha].
Qed.

Lemma fold_fmin_le (t : list pyfloat) : forall x,
  isnan x = false -> no_nan t ->
  fle (fold_left fmin t x) x = true /\ isnan (fold_left fmin t x) = false.
Proof.
  induction t as [|y t IH]; intros x Hx Ht; simpl.
  - split; [now apply fle_refl | exact Hx].
  - inversion Ht as [|? ? Hy Ht']; subst.
    destruct (fmin_le_l x y Hx Hy) as [H1 H2].
    destruct (IH (fmin x y) H2 Ht') as [H3 H4].
    split; [eapply fle_trans; eassumption | exact H4].
Qed.

Lemma fold_fmax_ge (t : list pyfloat) : forall x,
  isnan x = false -> no_nan t ->
  fle x (fold_left fmax t x) = true /\ isnan (fold_left fmax t x) = false.
Proof.
  induction t as [|y t IH]; intros x Hx Ht; simpl.
  - split; [now apply fle_refl | exact Hx].
  - inversion Ht as [|? ? Hy Ht']; subst.
    destruct (fmax_ge_l x y Hx Hy) as [H1 H2].
    destruct (IH (fmax x y) H2 Ht') as [H3 H4].
    split; [eapply fle_trans; eassumption | exact H4].
Qed.

(** On a sample without NaN the minimum is below the maximum as soon as
    the range is defined. *)
Lemma range_ordered (l : list pyfloat) :
  no_nan l ->
  range_defined (min_or_nan l) (max_or_nan l) = true ->
  fle (min_or_nan l) (max_or_nan l) = true.
Proof.
  intros Hl. destruct l as [|x t]; [discriminate|]. intros _.
  inversion Hl as [|? ? Hx Ht]; subst. simpl.
  destruct (fold_fmin_le t x Hx Ht) as [H1 _].
  destruct (fold_fmax_ge t x Hx Ht) as [H2 _].
  eapply fle_trans; eassumption.
Qed.

(** A range over a sample without NaN is defined exactly when the sample
    is not empty. *)
Lemma range_defined_iff (l : list pyfloat) :
  no_nan l ->
  (range_defined (min_or_nan l) (max_or_nan l) = true <-> l <> []).
Proof.
  intros Hl. destruct l as [|x t].
  - split; [discriminate | congruence].
  - inversion Hl as [|? ? Hx Ht]; subst. simpl.
    destruct (fold_fmin_le t x Hx Ht) as [_ H1].
    destruct (fold_fmax_ge t x Hx Ht) as [_ H2].
    unfold range_defined. rewrite H1, H2. simpl. split; congruence.
Qed.

End RangeFacts.

(** ** Counts, window and months of inventory *)

Section ReportFacts.

Variable df : DataFrame.
Variables today days : Z.

Lemma mask_sum_bounds (mask : Row -> bool) (l : list Row) :
  (0 <= mask_sum mask l <= Z.of_nat (List.length l))%Z.
Proof.
  induction l as [|r l IH]; simpl List.length; simpl mask_sum; [lia|].
  destruct (mask r); lia.
Qed.

Lemma Bucket_eqb_eq (a b : Bucket) : Bucket_eqb a b = true <-> a = b.
Proof. destruct a, b; simpl; split; congruence. Qed.

Lemma den_positive_iff :
  0 < den df today days <->
  ~ (sold_window_count df today days = 0%Z /\ pending_count df = 0%Z).
Proof.
  unfold den, sold_window_count, pending_count.
  pose proof (mask_sum_bounds (is_sold_window today days) (rows df)) as [Hs _].
  pose proof (mask_sum_bounds is_pending (rows df)) as [Hp _].
  set (s := mask_sum _ _) in *. set (p := mask_sum is_pending _) in *.
  unfold Qlt, Qplus, Qdiv, Qmult, Qinv, inject_Z. simpl. lia.
Qed.


Lemma net_price_no_concessions (r : Row) :
  has_concessions df = false -> net_price df r = _close_price r.
Proof. intros H. unfold net_price. rewrite H. apply fsub_zero_r. Qed.

End ReportFacts.

(** C2 (as stated, refuted).  In a frame that has the concessions column,
    a row whose close price parses and whose concessions cell does not
    has a missing net price: the NaN of the concessions goes through the
    subtraction. *)
Lemma C2_unparsed_concessions_lose_net_price :
  let r := {| Mls_Status := Some (lit "Closed");
              Close_Date := Some 0%Z;
              List_Price := Some (lit "300000");
              Close_Price := Some (lit "280000");
              Seller_Concessions := Some (lit "n/a") |} in
  let df := {| rows := [r]; has_concessions := true |} in
  same_value (_close_price r) (Finite 280000) /\
  isnan (_close_price r) = false /\
  isnan (net_price df r) = true.
Proof. repeat split; vm_compute; reflexivity. Qed.

(** Both prices parsed, both infinite: the difference is NaN as well. *)
Example net_price_of_equal_infinities :
  let r := {| Mls_Status := Some (lit "Closed");
              Close_Date := Some 0%Z;
              List_Price := None;
              Close_Price := Some (lit "inf");
              Seller_Concessions := Some (lit "Infinity") |} in
  let df := {| rows := [r]; has_concessions := true |} in
  _close_price r = PosInf /\ _concessions df r = PosInf /\
  net_price df r = NaN.
Proof. repeat split. Qed.

(** C2 (amended).  The net price of a row is missing exactly when its
    close price is missing, or the frame has the concessions column and
    the row's concessions value is missing or is the same infinity as the
    close price.  When the column is absent the concessions are the
    literal zero, and the net price is missing exactly when the close
    price is. *)
Theorem C2_net_price_missing_iff (df : DataFrame) (r : Row) :
  (isnan (net_price df r) = true <->
   isnan (_close_price r) = true \/
   (has_concessions df = true /\
    (isnan (_concessions df r) = true \/
     (_close_price r = PosInf /\ _concessions df r = PosInf) \/
     (_close_price r = NegInf /\ _concessions df r = NegInf)))) /\
  (has_concessions df = false ->
   (isnan (net_price df r) = true <-> isnan (_close_price r) = true)).
Proof.
  split.
  - unfold net_price, _concessions.
    destruct (has_concessions df).
    + rewrite fsub_isnan. intuition discriminate.
    + rewrite fsub_zero_r. intuition discriminate.
  - intros H. now rewrite (net_price_no_concessions df r H).
Qed.

Lemma C2_witness :
  let r := {| Mls_Status := Some (lit "Closed");
              Close_Date := Some 0%Z;
              List_Price := Some (lit "300000");
              Close_Price := Some (lit "280000");
              Seller_Concessions := Some (lit "n/a") |} in
  let df := {| rows := [r]; has_concessions := false |} in
  has_concessions df = false /\
  (isnan (net_price df r) = true <-> isnan (_close_price r) = true) /\
  same_value (net_price df r) (Finite 280000).
Proof.
  intros r df. split; [reflexivity|]. split.
  - apply (proj2 (C2_net_price_missing_iff df r)). reflexivity.
  - vm_compute. reflexivity.
Defined.

(** C3.  A row is in the sold window exactly when its bucket is [Sold],
    its close date parsed, and that date is not before the reference time
    minus the window; a close date exactly at that bound is in, one day
    earlier is out, and a row whose close date did not parse is out. *)
Theorem C3_sold_window (r : Row) (today days : Z) :
  (is_sold_window today days r = true <->
   _bucket r = Sold /\
   exists d, _close_date r = Some d /\ (today - days * ns_per_day <= d)%Z) /\
  (_bucket r = Sold ->
   _close_date r = Some (today - days * ns_per_day)%Z ->
   is_sold_window today days r = true) /\
  (_close_date r = Some (today - days * ns_per_day - ns_per_day)%Z ->
   is_sold_window today days r = false) /\
  (_close_date r = None -> is_sold_window today days r = false).
Proof.
  unfold is_sold_window, window_start.
  split; [split|split; [|split]].
  - intros H. apply andb_true_iff in H. destruct H as [Hb Hd].
    apply Bucket_eqb_eq in Hb. split; [exact Hb|].
    destruct (_close_date r) as [d|]; [|discriminate].
    exists d. split; [reflexivity | now apply Z.leb_le].
  - intros [Hb [d [-> Hd]]]. rewrite Hb. simpl. now apply Z.leb_le.
  - intros -> ->. simpl. apply Z.leb_le. lia.
  - intros ->. apply andb_false_iff. right. apply Z.leb_gt.
    unfold ns_per_day. lia.
  - intros ->. apply andb_false_r.
Qed.

Lemma C3_witness :
  let r := {| Mls_Status := Some (lit "Closed");
              Close_Date := Some (1000 - 90 * ns_per_day)%Z;
              List_Price := None;
              Close_Price := Some (lit "280000");
              Seller_Concessions := None |} in
  _bucket r = Sold /\
  _close_date r = Some (1000 - 90 * ns_per_day)%Z /\
  is_sold_window 1000 90 r = true.
Proof.
  intros r. split; [reflexivity|]. split; [reflexivity|].
  apply (proj1 (proj2 (C3_sold_window r 1000 90))); reflexivity.
Defined.



(** C7.  Each of the three counts lies between zero and the number of
    rows, and each of the three price ranges, when defined, has its
    minimum below or equal to its maximum. *)
Theorem C7_counts_and_ranges (df : DataFrame) (today days : Z) :
  let n := Z.of_nat (List.length (rows df)) in
  (0 <= active_count df <= n)%Z /\
  (0 <= pending_count df <= n)%Z /\
  (0 <= sold_window_count df today days <= n)%Z /\
  (range_defined (active_min df) (active_max df) = true ->
   fle (active_min df) (active_max df) = true) /\
  (range_defined (pending_min df) (pending_max df) = true ->
   fle (pending_min df) (pending_max df) = true) /\
  (range_defined (sold_net_min df today days) (sold_net_max df today days) = true ->
   fle (sold_net_min df today days) (sold_net_max df today days) = true).
Proof.
  intros n. subst n.
  split; [apply mask_sum_bounds|].
  split; [apply mask_sum_bounds|].
  split; [apply mask_sum_bounds|].
  split; [|split]; apply range_ordered; apply dropna_no_nan.
Qed.

Lemma C7_witness :
  let df := {| rows := [ {| Mls_Status := Some (lit "Active");
                            Close_Date := None;
                            List_Price := Some (lit "$300,000");
                            Close_Price := None;
                            Seller_Concessions := None |};
                         {| Mls_Status := Some (lit "Coming Soon");
                            Close_Date := None;
                            List_Price := Some (lit "275000");
                            Close_Price := None;
                            Seller_Concessions := None |};
                         {| Mls_Status := Some (lit "Closed");
                            Close_Date := Some (-10 * ns_per_day)%Z;
                            List_Price := None;
                            Close_Price := Some (lit "280000");
                            Seller_Concessions := Some (lit "5000") |} ];
               has_concessions := true |} in
  range_defined (active_min df) (active_max df) = true /\
  fle (active_min df) (active_max df) = true /\
  same_value (active_min df) (Finite 275000) /\
  same_value (active_max df) (Finite 300000) /\
  range_defined (sold_net_min df 0 90) (sold_net_max df 0 90) = true /\
  fle (sold_net_min df 0 90) (sold_net_max df 0 90) = true /\
  same_value (sold_net_min df 0 90) (Finite 275000).
Proof.
  intros df.
  pose proof (C7_counts_and_ranges df 0 90) as H. cbv zeta in H.
  destruct H as (_ & _ & _ & Ha & _ & Hs).
  split; [reflexivity|]. split; [apply Ha; reflexivity|].
  split; [vm_compute; reflexivity|]. split; [vm_compute; reflexivity|].
  split; [reflexivity|]. split; [apply Hs; reflexivity|].
  vm_compute; reflexivity.
Defined.

(** C8.  In a frame without the concessions column the net-price range
    over the sold window is the range of the plain close prices over the
    sold window. *)
Theorem C8_no_concessions_range (df : DataFrame) (today days : Z) :
  has_concessions df = false ->
  sold_net_min df today days = min_or_nan (sold_close_prices df today days) /\
  sold_net_max df today days = max_or_nan (sold_close_prices df today days).
Proof.
  intros H.
  assert (E : sold_net_prices df today days = sold_close_prices df today days).
  { unfold sold_net_prices, sold_close_prices. f_equal.
    apply map_ext. intros r. now apply net_price_no_concessions. }
  unfold sold_net_min, sold_net_max. now rewrite E.
Qed.

Lemma C8_witness :
  let df := {| rows := [ {| Mls_Status := Some (lit "Closed");
                            Close_Date := Some (-10 * ns_per_day)%Z;
                            List_Price := None;
                            Close_Price := Some (lit "280000");
                            Seller_Concessions := Some (lit "5000") |};
                         {| Mls_Status := Some (lit "Sold");
                            Close_Date := Some (-20 * ns_per_day)%Z;
                            List_Price := None;
                            Close_Price := Some (lit "$310,500.00");
                            Seller_Concessions := None |};
                         {| Mls_Status := Some (lit "Closed");
                            Close_Date := Some (-91 * ns_per_day)%Z;
                            List_Price := None;
                            Close_Price := Some (lit "999000");
                            Seller_Concessions := None |} ];
               has_concessions := false |} in
  has_concessions df = false /\
  sold_net_min df 0 90 = min_or_nan (sold_close_prices df 0 90) /\
  sold_net_max df 0 90 = max_or_nan (sold_close_prices df 0 90) /\
  same_value (sold_net_min df 0 90) (Finite 280000) /\
  same_value (sold_net_max df 0 90) (Finite 310500).
Proof.
  intros df.
  pose proof (C8_no_concessions_range df 0 90 eq_refl) as [Hmin Hmax].
  split; [reflexivity|]. split; [exact Hmin|]. split; [exact Hmax|].
  split; vm_compute; reflexivity.
Defined.

(** ** The float parser only reads numeric characters *)

Section ParserFacts.

Lemma lstrip_fixed (s : str) :
  match s with c :: _ => is_space c = false | [] => True end ->
  lstrip s = s.
Proof. destruct s as [|c t]; simpl; [reflexivity | now intros ->]. Qed.

Lemma lstrip_head (s : str) :
  match lstrip s with c :: _ => is_space c = false | [] => True end.
Proof.
  induction s as [|c t IH]; simpl; [exact I|].
  destruct (is_space c) eqn:E; [exact IH | exact E].
Qed.

Lemma rstrip_head (u : str) :
  match u with c :: _ => is_space c = false | [] => True end ->
  match rstrip u with c :: _ => is_space c = false | [] => True end.
Proof.
  intros H. destruct (rstrip_prefix u) as [b Hb].
  destruct (rstrip u) as [|c t]; [exact I|].
  rewrite Hb in H. exact H.
Qed.

Lemma strip_idempotent (s : str) : strip (strip s) = strip s.
Proof.
  unfold strip at 1.
  rewrite (lstrip_fixed (strip s)).
  - unfold strip, rstrip. rewrite rev_involutive.
    now rewrite (lstrip_fixed _ (lstrip_head (rev (lstrip s)))).
  - unfold strip. apply rstrip_head, lstrip_head.
Qed.

Lemma is_digit_numeric (c : ascii) : is_digit c = true -> numeric_char c = true.
Proof. intros H. unfold numeric_char. now rewrite H. Qed.

Lemma reads_numeric_refl (s : str) : reads_numeric s s.
Proof. exists []. split; reflexivity. Qed.

Lemma reads_numeric_cons (c : ascii) (s r : str) :
  numeric_char c = true -> reads_numeric s r -> reads_numeric (c :: s) r.
Proof.
  intros Hc [p [-> Hp]]. exists (c :: p). split; [reflexivity|].
  simpl. now rewrite Hc, Hp.
Qed.

Lemma reads_numeric_trans (s r t : str) :
  reads_numeric s r -> reads_numeric r t -> reads_numeric s t.
Proof.
  intros [p [-> Hp]] [q [-> Hq]]. exists (p ++ q).
  split; [now rewrite app_assoc|]. rewrite forallb_app. now rewrite Hp, Hq.
Qed.

Lemma reads_numeric_all (s : str) :
  reads_numeric s [] -> forallb numeric_char s = true.
Proof. intros [p [-> Hp]]. now rewrite app_nil_r. Qed.

Lemma digitpart_tail_reads (s : str) : forall acc cnt m k r,
  digitpart_tail acc cnt s = (m, k, r) -> reads_numeric s r.
Proof.
  induction s as [|c t IH]; intros acc cnt m k r; simpl.
  - intros [= _ _ <-]. apply reads_numeric_refl.
  - destruct (is_digit c) eqn:Ed.
    + intros H. apply reads_numeric_cons; [now apply is_digit_numeric|].
      eapply IH; eassumption.
    + destruct (Ascii.eqb c "_" && starts_with_digit t) eqn:Eu.
      * intros H. apply andb_true_iff in Eu. destruct Eu as [Eu _].
        apply Ascii.eqb_eq in Eu. subst c.
        apply reads_numeric_cons; [reflexivity|]. eapply IH; eassumption.
      * intros [= _ _ <-]. apply reads_numeric_refl.
Qed.

Lemma digitpart_reads (s : str) (acc m k : Z) (r : str) :
  digitpart acc s = Some (m, k, r) -> reads_numeric s r.
Proof.
  destruct s as [|c t]; simpl; [discriminate|].
  destruct (is_digit c) eqn:Ed; [|discriminate].
  intros [= H]. apply reads_numeric_cons; [now apply is_digit_numeric|].
  eapply digitpart_tail_reads; eassumption.
Qed.

Lemma split_sign_reads (s : str) : reads_numeric s (snd (split_sign s)).
Proof.
  destruct s as [|c t]; [apply reads_numeric_refl|].
  destruct c as [[] [] [] [] [] [] [] []]; simpl;
    first [ apply reads_numeric_refl
          | apply reads_numeric_cons; [reflexivity | apply reads_numeric_refl] ].
Qed.

Lemma number_reads (s : str) (m k : Z) (r : str) :
  number s = Some (m, k, r) -> reads_numeric s r.
Proof.
  unfold number. destruct (digitpart 0 s) as [[[ip k0] r0]|] eqn:E.
  - apply digitpart_reads in E.
    destruct r0 as [|c r']; [intros [= _ _ <-]; exact E|].
    destruct (Ascii.eqb c ".") eqn:Ec; [|intros [= _ _ <-]; exact E].
    apply Ascii.eqb_eq in Ec. subst c.
    assert (E' : reads_numeric s r').
    { eapply reads_numeric_trans; [exact E|].
      apply reads_numeric_cons; [reflexivity | apply reads_numeric_refl]. }
    destruct (digitpart ip r') as [[[m' k'] r'']|] eqn:E2.
    + intros [= _ _ <-]. apply digitpart_reads in E2.
      eapply reads_numeric_trans; eassumption.
    + intros [= _ _ <-]. exact E'.
  - destruct s as [|c r']; [discriminate|].
    destruct (Ascii.eqb c ".") eqn:Ec; [|discriminate].
    apply Ascii.eqb_eq in Ec. subst c. intros H.
    apply digitpart_reads in H.
    apply reads_numeric_cons; [reflexivity | exact H].
Qed.

Lemma exponent_reads (s : str) (e : Z) :
  exponent s = Some e -> forallb numeric_char s = true.
Proof.
  destruct s as [|c t]; [reflexivity|]. unfold exponent.
  destruct (Ascii.eqb (lower_char c) "e") eqn:Ec; [|discriminate].
  pose proof (split_sign_reads t) as Hs.
  destruct (split_sign t) as [neg t']. simpl in Hs.
  destruct (digitpart 0 t') as [[[x k] r]|] eqn:E; [|discriminate].
  destruct r; [|discriminate]. intros _.
  apply digitpart_reads in E.
  apply reads_numeric_all. apply reads_numeric_cons.
  - unfold numeric_char. apply Ascii.eqb_eq in Ec. rewrite Ec.
    apply orb_true_r.
  - eapply reads_numeric_trans; eassumption.
Qed.

(** A text that lower-cases to a word over the numeric letters is made of
    numeric characters. *)
Lemma lower_word_numeric (r : str) : forall w,
  lower r = w ->
  forallb (fun c => existsb (Ascii.eqb c) (lit "+-._einfatyn")) w = true ->
  forallb numeric_char r = true.
Proof.
  induction r as [|c r IH]; intros w <-; [reflexivity|].
  simpl lower. cbn [forallb]. rewrite !andb_true_iff. intros [Hc Hr]. split.
  - unfold numeric_char. rewrite Hc. apply orb_true_r.
  - eapply IH; [reflexivity | exact Hr].
Qed.

(** Whatever [float] accepts is, once stripped, made of numeric characters
    only. *)
Lemma py_float_numeric (s : str) (v : pyfloat) :
  py_float s = Some v -> forallb numeric_char (strip s) = true.
Proof.
  unfold py_float. cbv zeta.
  pose proof (split_sign_reads (strip s)) as Hs.
  destruct (split_sign (strip s)) as [neg r]. simpl in Hs.
  assert (W : forall w,
    forallb (fun c => existsb (Ascii.eqb c) (lit "+-._einfatyn")) w = true ->
    str_eqb (lower r) w = true -> forallb numeric_char (strip s) = true).
  { intros w Hw E. apply str_eqb_eq in E.
    apply reads_numeric_all. eapply reads_numeric_trans; [exact Hs|].
    exists r. split; [now rewrite app_nil_r|].
    eapply lower_word_numeric; eassumption. }
  destruct (str_eqb (lower r) (lit "inf")) eqn:E1;
    [intros _; now apply (W (lit "inf"))|].
  destruct (str_eqb (lower r) (lit "infinity")) eqn:E2;
    [intros _; now apply (W (lit "infinity"))|].
  cbn [orb].
  destruct (str_eqb (lower r) (lit "nan")) eqn:E3;
    [intros _; now apply (W (lit "nan"))|].
  destruct (number r) as [[[m k] r']|] eqn:En; [|discriminate].
  destruct (exponent r') as [e|] eqn:Ee; [|discriminate]. intros _.
  apply number_reads in En. apply exponent_reads in Ee.
  apply reads_numeric_all. eapply reads_numeric_trans; [exact Hs|].
  eapply reads_numeric_trans; [exact En|].
  exists r'. split; [now rewrite app_nil_r | exact Ee].
Qed.

Lemma remove_char_idem (c : ascii) (x : str) :
  remove_char c (remove_char c x) = remove_char c x.
Proof.
  unfold remove_char. induction x as [|d x IH]; simpl; [reflexivity|].
  destruct (Ascii.eqb d c) eqn:E; simpl; [exact IH|].
  rewrite E. simpl. now rewrite IH.
Qed.

Lemma remove_char_comm (c d : ascii) (x : str) :
  remove_char c (remove_char d x) = remove_char d (remove_char c x).
Proof.
  unfold remove_char. induction x as [|e x IH]; simpl; [reflexivity|].
  destruct (Ascii.eqb e d) eqn:Ed; destruct (Ascii.eqb e c) eqn:Ec; simpl;
    rewrite ?Ed, ?Ec; simpl; now rewrite ?IH.
Qed.

Lemma remove_char_spaces (c : ascii) (a : str) :
  forallb is_space a = true -> forallb is_space (remove_char c a) = true.
Proof.
  rewrite !forallb_forall. intros H d Hd. apply H.
  unfold remove_char in Hd. now apply filter_In in Hd.
Qed.

Lemma lstrip_pad (a y : str) :
  forallb is_space a = true -> lstrip (a ++ y) = lstrip y.
Proof.
  induction a as [|c a IH]; simpl; [reflexivity|].
  rewrite andb_true_iff. intros [-> Ha]. now apply IH.
Qed.

Lemma rstrip_pad (y b : str) :
  forallb is_space b = true -> rstrip (y ++ b) = rstrip y.
Proof.
  intros Hb. unfold rstrip. rewrite rev_app_distr, lstrip_pad; [reflexivity|].
  rewrite forallb_forall in *. intros c Hc. apply Hb. now apply in_rev.
Qed.

(** White space around a text does not change what [strip] returns. *)
Lemma strip_pad (a y b : str) :
  forallb is_space a = true -> forallb is_space b = true ->
  strip (a ++ y ++ b) = strip y.
Proof.
  intros Ha Hb. unfold strip. rewrite (lstrip_pad a (y ++ b) Ha).
  induction y as [|c y IH]; simpl.
  - rewrite <- (app_nil_r b) at 1. now rewrite (lstrip_pad b [] Hb).
  - destruct (is_space c); [exact IH|].
    change (c :: y ++ b) with ((c :: y) ++ b). now apply rstrip_pad.
Qed.

(** The residual, hence [to_num], does not see "$" and "," wherever they
    stand, nor the white space around the text. *)
Lemma residual_insensitive :
  (forall x, residual (remove_char "$" x) = residual x) /\
  (forall x, residual (remove_char "," x) = residual x) /\
  (forall a x b, forallb is_space a = true -> forallb is_space b = true ->
                 residual (a ++ x ++ b) = residual x).
Proof.
  unfold residual. repeat split.
  - intros x. now rewrite remove_char_idem.
  - intros x. now rewrite (remove_char_comm "$" "," x), remove_char_idem.
  - intros a x b Ha Hb. unfold remove_char at 1 2.
    rewrite !filter_app. fold (remove_char "$" a) (remove_char "$" x)
      (remove_char "$" b).
    fold (remove_char "," (remove_char "$" a))
         (remove_char "," (remove_char "$" x))
         (remove_char "," (remove_char "$" b)).
    apply strip_pad; now repeat apply remove_char_spaces.
Qed.

(** A residual holding a character that is not numeric is rejected. *)
Lemma py_float_rejects (t : str) (c : ascii) :
  In c (strip t) -> numeric_char c = false -> py_float t = None.
Proof.
  intros Hin Hc. destruct (py_float t) as [v|] eqn:E; [|reflexivity].
  apply py_float_numeric in E. rewrite forallb_forall in E.
  rewrite (E c Hin) in Hc. discriminate.
Qed.

End ParserFacts.

(** [float] accepts the spellings of infinity: such a residual is numeric
    and is not turned into the missing value. *)
Example to_num_infinity :
  to_num (Some (lit "inf")) = PosInf /\
  to_num (Some (lit "-Infinity")) = NegInf /\
  to_num (Some (lit "nan")) = NaN.
Proof. repeat split. Qed.

(** ** The worked scenario of the specification

    Three rows, an active one listed at 300000, a pending one listed at
    250000, and one closed ten days before the reference time at 280000
    with 5000 of concessions; window of ninety days. *)
Example scenario_bundle :
  let df := {| rows := [ {| Mls_Status := Some (lit "Active");
                            Close_Date := None;
                            List_Price := Some (lit "300000");
                            Close_Price := None;
                            Seller_Concessions := None |};
                         {| Mls_Status := Some (lit "Pending");
                            Close_Date := None;
                            List_Price := Some (lit "250000");
                            Close_Price := None;
                            Seller_Concessions := None |};
                         {| Mls_Status := Some (lit "Closed");
                            Close_Date := Some (-10 * ns_per_day)%Z;
                            List_Price := None;
                            Close_Price := Some (lit "280000");
                            Seller_Concessions := Some (lit "5000") |} ];
               has_concessions := true |} in
  active_count df = 1%Z /\ pending_count df = 1%Z /\
  sold_window_count df 0 90 = 1%Z /\
  same_value (moi df 0 90) (Finite 0.75) /\
  same_value (active_min df) (Finite 300000) /\
  same_value (active_max df) (Finite 300000) /\
  same_value (pending_min df) (Finite 250000) /\
  same_value (pending_max df) (Finite 250000) /\
  same_value (sold_net_min df 0 90) (Finite 275000) /\
  same_value (sold_net_max df 0 90) (Finite 275000).
Proof. repeat split; vm_compute; reflexivity. Qed.

(* ================================================================== *)
(** * Part III.  Further properties of the code *)
(* ================================================================== *)

(** ** The classifier seen from the lower-cased status *)

Section ClassifierShape.

Lemma any_in_normalised (keys : list str) (s : str) :
  forallb solid keys = true ->
  any_in keys (lower (strip s)) = any_in keys (lower s).
Proof.
  unfold any_in. induction keys as [|k keys IH]; simpl; [reflexivity|].
  rewrite andb_true_iff. intros [Hk Hks].
  now rewrite (normalised_contains k s Hk), IH.
Qed.

(** The classifier written over the lower-cased status: neither the
    stripping nor the exact-match test shows in the answer. *)
Lemma bucket_status_lower (s : str) :
  bucket_status (Some s) =
  if any_in ACTIVE_KEYS (lower s) && negb (any_in NOT_ACTIVE_KEYS (lower s))
  then Active
  else if any_in PENDING_KEYS (lower s) then Pending
  else if any_in SOLD_KEYS (lower s) then Sold
  else Other.
Proof.
  unfold bucket_status. cbv zeta.
  destruct (str_eqb (lower (strip s)) (lit "active")) eqn:E5.
  - apply rule5_shadowed in E5. rewrite E5.
    rewrite !any_in_normalised in E5 by reflexivity. now rewrite E5.
  - now rewrite !any_in_normalised by reflexivity.
Qed.

End ClassifierShape.

(** X1.  Two statuses that differ only in letter case are classified
    alike. *)
Theorem X1_case_insensitive (s s' : str) :
  lower s = lower s' ->
  bucket_status (Some s) = bucket_status (Some s').
Proof. intros H. rewrite !bucket_status_lower. now rewrite H. Qed.

Lemma X1_witness :
  lower (lit "Under CONTRACT") = lower (lit "under contract") /\
  bucket_status (Some (lit "Under CONTRACT")) =
  bucket_status (Some (lit "under contract")).
Proof.
  split; [reflexivity|].
  apply (X1_case_insensitive (lit "Under CONTRACT") (lit "under contract")).
  reflexivity.
Defined.

(** X2.  White space before and after a status does not change its
    bucket. *)
Theorem X2_padding_ignored (a s b : str) :
  forallb is_space a = true -> forallb is_space b = true ->
  bucket_status (Some (a ++ s ++ b)) = bucket_status (Some s).
Proof.
  intros Ha Hb. unfold bucket_status.
  now rewrite (strip_pad a s b Ha Hb).
Qed.

Lemma X2_witness :
  forallb is_space (lit "  ") = true /\
  bucket_status (Some (lit "  " ++ lit "Closed" ++ lit " ")) =
  bucket_status (Some (lit "Closed")).
Proof.
  split; [reflexivity|].
  apply (X2_padding_ignored (lit "  ") (lit "Closed") (lit " ")); reflexivity.
Defined.

(** X3.  A status is [Active] exactly when its lower-cased text holds one
    of the active keys and neither "pending" nor "under contract". *)
Theorem X3_active_iff (s : str) :
  bucket_status (Some s) = Active <->
  any_in ACTIVE_KEYS (lower s) = true /\
  any_in NOT_ACTIVE_KEYS (lower s) = false.
Proof.
  rewrite bucket_status_lower.
  destruct (any_in ACTIVE_KEYS (lower s)), (any_in NOT_ACTIVE_KEYS (lower s)),
    (any_in PENDING_KEYS (lower s)), (any_in SOLD_KEYS (lower s)); simpl;
    split; try tauto; try discriminate; intros [? ?]; discriminate.
Qed.

(** X4.  A status is [Pending] exactly when its lower-cased text holds
    "pending" or "under contract", or holds "accepting backup" and no
    active key.  The pending key "a/i" never decides: a text that holds it
    holds the active key "a/". *)
Theorem X4_pending_iff (s : str) :
  bucket_status (Some s) = Pending <->
  any_in NOT_ACTIVE_KEYS (lower s) = true \/
  (contains (lit "accepting backup") (lower s) = true /\
   any_in ACTIVE_KEYS (lower s) = false).
Proof.
  rewrite bucket_status_lower.
  assert (Hai : contains (lit "a/i") (lower s) = true ->
                contains (lit "a/") (lower s) = true)
    by (apply contains_trans; reflexivity).
  unfold any_in, ACTIVE_KEYS, NOT_ACTIVE_KEYS, PENDING_KEYS. cbn [existsb].
  destruct (contains (lit "pending") (lower s)),
           (contains (lit "under contract") (lower s)),
           (contains (lit "a/i") (lower s)),
           (contains (lit "a/") (lower s)),
           (contains (lit "accepting backup") (lower s)),
           (contains (lit "active") (lower s)),
           (contains (lit "coming soon") (lower s)),
           (contains (lit "back on market") (lower s)),
           (existsb (fun k => contains k (lower s)) SOLD_KEYS);
    simpl; try (specialize (Hai eq_refl); discriminate);
    split; intros H; try discriminate; try tauto;
    try (left; reflexivity); try (right; split; reflexivity);
    destruct H as [H|[H1 H2]]; discriminate.
Qed.

(** X5.  A status is [Sold] exactly when its lower-cased text holds
    "closed" or "sold" and no active key and no pending key: the two
    earlier rules take every text that also holds one of their keys. *)
Theorem X5_sold_iff (s : str) :
  bucket_status (Some s) = Sold <->
  any_in SOLD_KEYS (lower s) = true /\
  any_in ACTIVE_KEYS (lower s) = false /\
  any_in PENDING_KEYS (lower s) = false.
Proof.
  rewrite bucket_status_lower.
  assert (Hn : any_in PENDING_KEYS (lower s) = false ->
               any_in NOT_ACTIVE_KEYS (lower s) = false).
  { rewrite !any_in_false. intros H k Hk. apply H.
    simpl in Hk |- *. tauto. }
  destruct (any_in ACTIVE_KEYS (lower s)), (any_in NOT_ACTIVE_KEYS (lower s)),
    (any_in PENDING_KEYS (lower s)), (any_in SOLD_KEYS (lower s)); simpl;
    try (specialize (Hn eq_refl); discriminate);
    split; try discriminate; try tauto;
    intros (? & ? & ?); discriminate.
Qed.

(** X6.  A status is [Other] exactly when its lower-cased text holds no
    key of the three lists. *)
Theorem X6_other_iff (s : str) :
  bucket_status (Some s) = Other <->
  any_in ACTIVE_KEYS (lower s) = false /\
  any_in PENDING_KEYS (lower s) = false /\
  any_in SOLD_KEYS (lower s) = false.
Proof.
  rewrite bucket_status_lower.
  assert (Hn : any_in PENDING_KEYS (lower s) = false ->
               any_in NOT_ACTIVE_KEYS (lower s) = false).
  { rewrite !any_in_false. intros H k Hk. apply H.
    simpl in Hk |- *. tauto. }
  destruct (any_in ACTIVE_KEYS (lower s)), (any_in NOT_ACTIVE_KEYS (lower s)),
    (any_in PENDING_KEYS (lower s)), (any_in SOLD_KEYS (lower s)); simpl;
    try (specialize (Hn eq_refl); discriminate);
    split; try discriminate; try tauto;
    intros (? & ? & ?); discriminate.
Qed.

(** ** Amounts read by [to_num] *)

Section AmountFacts.

Lemma strip_no_space (s : str) :
  forallb (fun c => negb (is_space c)) s = true -> strip s = s.
Proof.
  intros H. unfold strip, rstrip.
  assert (Hd : forall u, forallb (fun c => negb (is_space c)) u = true ->
                         lstrip u = u).
  { intros u Hu. apply lstrip_fixed. destruct u as [|c u]; [exact I|].
    simpl in Hu. apply andb_true_iff in Hu. now apply negb_true_iff. }
  rewrite (Hd s H). rewrite Hd; [apply rev_involutive|].
  rewrite forallb_forall in *. intros c Hc. apply H. now apply in_rev.
Qed.

(** What a digit is not. *)
Lemma digit_facts (c : ascii) :
  is_digit c = true ->
  is_space c = false /\ lower_char c = c /\
  Ascii.eqb c "$" = false /\ Ascii.eqb c "," = false /\
  Ascii.eqb c "." = false /\ Ascii.eqb c "_" = false /\
  Ascii.eqb c "i" = false /\ Ascii.eqb c "n" = false /\
  (forall t, split_sign (c :: t) = (false, c :: t)).
Proof.
  destruct c as [[] [] [] [] [] [] [] []]; vm_compute;
    first [ discriminate | intros _; repeat split ].
Qed.

Lemma digitpart_tail_digits (ds : str) : forall acc cnt rest,
  forallb is_digit ds = true -> ends_digits rest = true ->
  digitpart_tail acc cnt (ds ++ rest) =
  (digits_value acc ds, (cnt + Z.of_nat (List.length ds))%Z, rest).
Proof.
  induction ds as [|d ds IH]; intros acc cnt rest Hds Hr.
  - simpl. rewrite Z.add_0_r. destruct rest as [|c t]; [reflexivity|].
    simpl in Hr. apply andb_true_iff in Hr. destruct Hr as [H1 H2].
    apply negb_true_iff in H1, H2. simpl. now rewrite H1, H2.
  - simpl in Hds. apply andb_true_iff in Hds. destruct Hds as [Hd Hds].
    cbn [app digitpart_tail]. rewrite Hd. rewrite (IH _ _ rest Hds Hr).
    cbn [digits_value fold_left List.length]. f_equal. f_equal. lia.
Qed.

Lemma digitpart_digits (ds : str) (acc : Z) (rest : str) :
  ds <> [] -> forallb is_digit ds = true -> ends_digits rest = true ->
  digitpart acc (ds ++ rest) =
  Some (digits_value acc ds, Z.of_nat (List.length ds), rest).
Proof.
  destruct ds as [|d ds]; [congruence|]. intros _ Hds Hr.
  simpl in Hds. apply andb_true_iff in Hds. destruct Hds as [Hd Hds].
  cbn [app digitpart]. rewrite Hd.
  rewrite (digitpart_tail_digits ds _ _ rest Hds Hr).
  cbn [digits_value fold_left List.length]. do 3 f_equal. lia.
Qed.

(** Once "$" and "," are removed, a plain amount is its digits. *)
Lemma amount_residue (a : str) :
  forallb amount_char a = true ->
  remove_char "," (remove_char "$" a) = filter is_digit a.
Proof.
  unfold remove_char. induction a as [|c a IH]; [reflexivity|].
  cbn [forallb]. rewrite andb_true_iff. intros [Hc Ha].
  specialize (IH Ha). unfold amount_char in Hc.
  destruct (is_digit c) eqn:Ed.
  - destruct (digit_facts c Ed) as (_ & _ & E1 & E2 & _).
    cbn [filter]. rewrite E1. cbn [negb filter]. rewrite E2, Ed.
    cbn [negb]. now rewrite IH.
  - cbn [filter]. rewrite Ed. simpl in Hc.
    destruct (Ascii.eqb c "$") eqn:E1; cbn [negb]; [exact IH|].
    simpl in Hc. cbn [filter]. rewrite Hc. cbn [negb]. exact IH.
Qed.

Lemma digits_no_space (ds : str) :
  forallb is_digit ds = true ->
  forallb (fun c => negb (is_space c)) ds = true.
Proof.
  rewrite !forallb_forall. intros H c Hc.
  destruct (digit_facts c (H c Hc)) as (E & _). now rewrite E.
Qed.

(** The three words of [float] do not begin with a digit. *)
Lemma digit_head_no_word (d : ascii) (t : str) :
  is_digit d = true ->
  str_eqb (lower (d :: t)) (lit "inf") = false /\
  str_eqb (lower (d :: t)) (lit "infinity") = false /\
  str_eqb (lower (d :: t)) (lit "nan") = false.
Proof.
  intros Hd. destruct (digit_facts d Hd) as (_ & El & _ & _ & _ & _ & Ei & En & _).
  cbn [lower map lit list_ascii_of_string str_eqb]. rewrite El, Ei, En.
  repeat split.
Qed.

Lemma digits_value_app (acc : Z) (a b : str) :
  digits_value acc (a ++ b) = digits_value (digits_value acc a) b.
Proof. unfold digits_value. apply fold_left_app. Qed.

(** [float] on digits, a point and digits, with nothing else. *)
Lemma py_float_decimal (ds fp : str) :
  ds <> [] -> forallb is_digit ds = true -> forallb is_digit fp = true ->
  py_float (ds ++ "."%char :: fp) =
  Some (Finite (dec_value false (digits_value 0 (ds ++ fp))
                          (0 - Z.of_nat (List.length fp)))).
Proof.
  intros Hne Hds Hfp. unfold py_float. cbv zeta.
  rewrite digits_value_app.
  rewrite strip_no_space.
  2:{ rewrite forallb_app. rewrite (digits_no_space ds Hds).
      cbn [forallb]. rewrite (digits_no_space fp Hfp). reflexivity. }
  assert (Hn : number (ds ++ "."%char :: fp) =
               Some (digits_value (digits_value 0 ds) fp,
                     Z.of_nat (List.length fp), [])).
  { unfold number.
    rewrite (digitpart_digits ds 0 ("."%char :: fp) Hne Hds eq_refl).
    cbn [Ascii.eqb Bool.eqb]. cbn iota.
    destruct fp as [|f fp]; [reflexivity|].
    rewrite <- (app_nil_r (f :: fp)) at 1.
    now rewrite (digitpart_digits (f :: fp) _ [] ltac:(discriminate) Hfp eq_refl). }
  destruct ds as [|d ds]; [congruence|].
  assert (Hd : is_digit d = true)
    by (simpl in Hds; apply andb_true_iff in Hds; tauto).
  destruct (digit_facts d Hd) as (_ & _ & _ & _ & _ & _ & _ & _ & Es).
  destruct (digit_head_no_word d (ds ++ "."%char :: fp) Hd) as (W1 & W2 & W3).
  change ((d :: ds) ++ "."%char :: fp) with (d :: ds ++ "."%char :: fp) in *.
  rewrite Es, W1, W2, W3. cbn [orb]. rewrite Hn. reflexivity.
Qed.

(** [float] on digits alone. *)
Lemma py_float_digits (ds : str) :
  ds <> [] -> forallb is_digit ds = true ->
  py_float ds = Some (Finite (inject_Z (digits_value 0 ds))).
Proof.
  intros Hne Hds. unfold py_float. cbv zeta.
  rewrite (strip_no_space ds (digits_no_space ds Hds)).
  destruct ds as [|d ds]; [congruence|].
  assert (Hd : is_digit d = true)
    by (simpl in Hds; apply andb_true_iff in Hds; tauto).
  destruct (digit_facts d Hd) as (_ & _ & _ & _ & _ & _ & _ & _ & Es).
  rewrite Es.
  destruct (digit_head_no_word d ds Hd) as (W1 & W2 & W3).
  rewrite W1, W2, W3. cbn [orb]. unfold number.
  rewrite <- (app_nil_r (d :: ds)) at 1.
  rewrite (digitpart_digits (d :: ds) 0 [] Hne Hds eq_refl).
  cbn [exponent]. unfold dec_value. cbn [Z.sub Z.opp Z.leb Z.compare Z.pow Z.pow_pos].
  now rewrite Z.mul_1_r.
Qed.

End AmountFacts.

Section AmountValue.

Lemma digits_residue (fp : str) :
  forallb is_digit fp = true ->
  remove_char "," (remove_char "$" fp) = fp.
Proof.
  intros H. rewrite amount_residue.
  - induction fp as [|c fp IH]; [reflexivity|].
    simpl in H |- *. apply andb_true_iff in H. destruct H as [-> H].
    now rewrite IH.
  - rewrite forallb_forall in *. intros c Hc. unfold amount_char.
    now rewrite (H c Hc).
Qed.

Lemma filter_digits_nonempty (a : str) :
  existsb is_digit a = true -> filter is_digit a <> [].
Proof.
  rewrite existsb_exists. intros [c [Hin Hc]] E.
  assert (Hf : In c (filter is_digit a)) by (apply filter_In; auto).
  rewrite E in Hf. exact Hf.
Qed.

Lemma filter_digits_digits (a : str) :
  forallb is_digit (filter is_digit a) = true.
Proof.
  apply forallb_forall. intros c Hc. now apply filter_In in Hc.
Qed.

Lemma dec_value_Q (m k : Z) :
  (0 <= k)%Z ->
  dec_value false m (0 - k) == inject_Z m / inject_Z (10 ^ k).
Proof.
  intros Hk. unfold dec_value.
  destruct (Z.eq_dec k 0) as [->|Hnz].
  - simpl. unfold Qeq, Qdiv, Qmult, Qinv, inject_Z. simpl. lia.
  - assert (E : (0 <=? 0 - k)%Z = false) by (apply Z.leb_gt; lia).
    rewrite E. replace (- (0 - k))%Z with k by lia.
    assert (Hp : (0 < 10 ^ k)%Z) by (apply Z.pow_pos_nonneg; lia).
    destruct (10 ^ k)%Z as [|p|p] eqn:Ep; try lia.
    unfold Qeq, Qdiv, Qmult, Qinv, inject_Z. simpl. lia.
Qed.

End AmountValue.

(** X7.  A cell made of digits, dollar signs and commas, with at least one
    digit, whose digits write an integer of at most 2^53 (the integers
    that binary64 holds exactly), is read as that integer: the dollar
    signs and the commas are dropped wherever they stand. *)
Theorem X7_plain_amount (a : str) :
  forallb amount_char a = true -> existsb is_digit a = true ->
  (digits_value 0 (filter is_digit a) <= 2 ^ 53)%Z ->
  to_num (Some a) = Finite (inject_Z (digits_value 0 (filter is_digit a))).
Proof.
  intros Ha Hd _. unfold to_num, residual. cbv zeta.
  rewrite (amount_residue a Ha).
  rewrite (strip_no_space _ (digits_no_space _ (filter_digits_digits a))).
  now rewrite (py_float_digits _ (filter_digits_nonempty a Hd)
                               (filter_digits_digits a)).
Qed.

Lemma X7_witness :
  forallb amount_char (lit "$1,2,34") = true /\
  existsb is_digit (lit "$1,2,34") = true /\
  (digits_value 0 (filter is_digit (lit "$1,2,34")) <= 2 ^ 53)%Z /\
  to_num (Some (lit "$1,2,34")) = Finite (inject_Z 1234).
Proof.
  assert (Hb : (digits_value 0 (filter is_digit (lit "$1,2,34")) <= 2 ^ 53)%Z)
    by (vm_compute; discriminate).
  split; [reflexivity|]. split; [reflexivity|]. split; [exact Hb|].
  apply (X7_plain_amount (lit "$1,2,34")); [reflexivity | reflexivity | exact Hb].
Defined.

(** X8.  A cell made of such an amount, a point and digits is read as
    the number with that many decimals: all the digits taken as one
    integer, divided by ten to the number of digits after the point. *)
Theorem X8_amount_with_decimals (a fp : str) :
  forallb amount_char a = true -> existsb is_digit a = true ->
  forallb is_digit fp = true ->
  same_value
    (to_num (Some (a ++ "."%char :: fp)))
    (Finite (inject_Z (digits_value 0 (filter is_digit a ++ fp)) /
             inject_Z (10 ^ Z.of_nat (List.length fp)))).
Proof.
  intros Ha Hd Hfp. unfold to_num, residual. cbv zeta.
  assert (E : remove_char "," (remove_char "$" (a ++ "."%char :: fp)) =
              filter is_digit a ++ "."%char :: fp).
  { pose proof (amount_residue a Ha) as E1.
    pose proof (digits_residue fp Hfp) as E2.
    unfold remove_char in *. rewrite !filter_app, E1.
    cbn [filter Ascii.eqb Bool.eqb negb]. now rewrite E2. }
  rewrite E.
  rewrite strip_no_space.
  2:{ rewrite forallb_app.
      rewrite (digits_no_space _ (filter_digits_digits a)).
      cbn [forallb]. now rewrite (digits_no_space fp Hfp). }
  rewrite (py_float_decimal _ fp (filter_digits_nonempty a Hd)
                            (filter_digits_digits a) Hfp).
  simpl same_value. apply dec_value_Q. lia.
Qed.

Lemma X8_witness :
  forallb amount_char (lit "$1,234") = true /\
  forallb is_digit (lit "50") = true /\
  same_value (to_num (Some (lit "$1,234" ++ "."%char :: lit "50")))
             (Finite (inject_Z 123450 / inject_Z 100)).
Proof.
  split; [reflexivity|]. split; [reflexivity|].
  apply (X8_amount_with_decimals (lit "$1,234") (lit "50")); reflexivity.
Defined.

(** ** Counts and window *)

Section CountFacts.

Lemma mask_sum_mono (m1 m2 : Row -> bool) (l : list Row) :
  (forall r, In r l -> m1 r = true -> m2 r = true) ->
  (mask_sum m1 l <= mask_sum m2 l)%Z.
Proof.
  induction l as [|r l IH]; intros H; simpl; [lia|].
  assert (IH' : (mask_sum m1 l <= mask_sum m2 l)%Z)
    by (apply IH; intros; apply H; simpl; auto).
  pose proof (H r (or_introl eq_refl)) as Hr.
  destruct (m1 r), (m2 r); try lia.
Qed.

Lemma mask_sum_perm (m : Row -> bool) (l l' : list Row) :
  Permutation l l' -> mask_sum m l = mask_sum m l'.
Proof.
  induction 1; simpl; try lia.
Qed.

Lemma window_widens (today days today' days' : Z) (r : Row) :
  (days <= days')%Z -> (today' <= today)%Z ->
  is_sold_window today days r = true ->
  is_sold_window today' days' r = true.
Proof.
  intros Hd Ht. unfold is_sold_window, window_start.
  rewrite !andb_true_iff. intros [Hb Hw]. split; [exact Hb|].
  destruct (_close_date r) as [d|]; [|discriminate].
  apply Z.leb_le in Hw. apply Z.leb_le. unfold ns_per_day in *. nia.
Qed.

(** A row adds to at most one of the three counts. *)
Lemma one_count_per_row (today days : Z) (r : Row) :
  ((if is_active r then 1 else 0) + (if is_pending r then 1 else 0) +
   (if is_sold_window today days r then 1 else 0) <= 1)%Z.
Proof.
  unfold is_active, is_pending, is_sold_window.
  destruct (_bucket r); simpl; try lia.
  destruct (match _close_date r with Some _ => _ | None => _ end); lia.
Qed.

End CountFacts.

(** X9.  No row is counted twice: the active, pending and sold-window
    counts together do not exceed the number of rows. *)
Theorem X9_counts_disjoint (df : DataFrame) (today days : Z) :
  (active_count df + pending_count df + sold_window_count df today days
   <= Z.of_nat (List.length (rows df)))%Z.
Proof.
  unfold active_count, pending_count, sold_window_count.
  induction (rows df) as [|r l IH]; [simpl; lia|].
  pose proof (one_count_per_row today days r) as H.
  cbn [mask_sum fold_right List.length]. fold (mask_sum is_active l).
  fold (mask_sum is_pending l). fold (mask_sum (is_sold_window today days) l).
  rewrite Nat2Z.inj_succ. lia.
Qed.

(** X10.  A longer window or an earlier reference time never loses a
    sale: the sold-window count does not decrease. *)
Theorem X10_window_monotone (df : DataFrame) (today days today' days' : Z) :
  (days <= days')%Z -> (today' <= today)%Z ->
  (sold_window_count df today days <= sold_window_count df today' days')%Z.
Proof.
  intros Hd Ht. unfold sold_window_count. apply mask_sum_mono.
  intros r _. now apply window_widens.
Qed.

Lemma X10_witness :
  let df := {| rows := [ {| Mls_Status := Some (lit "Closed");
                            Close_Date := Some (-10 * ns_per_day)%Z;
                            List_Price := None;
                            Close_Price := Some (lit "280000");
                            Seller_Concessions := None |};
                         {| Mls_Status := Some (lit "Sold");
                            Close_Date := Some (-100 * ns_per_day)%Z;
                            List_Price := None;
                            Close_Price := Some (lit "310000");
                            Seller_Concessions := None |} ];
               has_concessions := false |} in
  (90 <= 180)%Z /\ (0 <= 0)%Z /\
  sold_window_count df 0 90 = 1%Z /\ sold_window_count df 0 180 = 2%Z /\
  (sold_window_count df 0 90 <= sold_window_count df 0 180)%Z.
Proof.
  intros df. split; [lia|]. split; [lia|].
  split; [reflexivity|]. split; [reflexivity|].
  apply (X10_window_monotone df 0 90 0 180); lia.
Defined.

(** X11.  The window has no upper end: a sold row whose close date is at
    or after the reference time is in the window, whatever the
    non-negative number of days. *)
Theorem X11_future_close_dates_counted (r : Row) (today days d : Z) :
  _bucket r = Sold -> _close_date r = Some d ->
  (today <= d)%Z -> (0 <= days)%Z ->
  is_sold_window today days r = true.
Proof.
  intros Hb Hd Ht Hn. unfold is_sold_window, window_start.
  rewrite Hb, Hd. simpl. apply Z.leb_le. unfold ns_per_day. nia.
Qed.

Lemma X11_witness :
  let r := {| Mls_Status := Some (lit "Closed");
              Close_Date := Some (400 * ns_per_day)%Z;
              List_Price := None;
              Close_Price := Some (lit "280000");
              Seller_Concessions := None |} in
  _bucket r = Sold /\ (0 <= 400 * ns_per_day)%Z /\
  is_sold_window 0 30 r = true.
Proof.
  intros r. split; [reflexivity|]. split; [unfold ns_per_day; lia|].
  apply (X11_future_close_dates_counted r 0 30 (400 * ns_per_day));
    [reflexivity | reflexivity | unfold ns_per_day; lia | lia].
Defined.

(** X12.  The order of the rows does not matter to the active and the
    pending counts: each row is classified from its own status cell. *)
Theorem X12_row_order_irrelevant (df df' : DataFrame) :
  Permutation (rows df) (rows df') ->
  active_count df = active_count df' /\
  pending_count df = pending_count df'.
Proof.
  intros H. split; apply mask_sum_perm, H.
Qed.

Lemma X12_witness :
  let a := {| Mls_Status := Some (lit "Active"); Close_Date := None;
              List_Price := Some (lit "300000"); Close_Price := None;
              Seller_Concessions := None |} in
  let p := {| Mls_Status := Some (lit "Pending"); Close_Date := None;
              List_Price := Some (lit "250000"); Close_Price := None;
              Seller_Concessions := None |} in
  let df := {| rows := [a; p; a]; has_concessions := false |} in
  let df' := {| rows := [p; a; a]; has_concessions := false |} in
  Permutation (rows df) (rows df') /\
  active_count df = 2%Z /\ active_count df = active_count df'.
Proof.
  intros a p df df'.
  assert (H : Permutation (rows df) (rows df')) by apply perm_swap.
  split; [exact H|]. split; [reflexivity|].
  apply (X12_row_order_irrelevant df df' H).
Defined.

(** X13.  When the months of inventory are defined they are a finite
    value that is never negative, and that is zero exactly when there is
    no active row. *)
Theorem X13_moi_sign (df : DataFrame) (today days : Z) :
  ~ (sold_window_count df today days = 0%Z /\ pending_count df = 0%Z) ->
  exists q : Q,
    moi df today days = Finite q /\ 0 <= q /\
    (q == 0 <-> active_count df = 0%Z).
Proof.
  intros H.
  pose proof (proj2 (den_positive_iff df today days) H) as Hpos.
  pose proof Hpos as Hb. apply Qlt_bool_iff in Hb.
  unfold moi. rewrite Hb. eexists. split; [reflexivity|].
  pose proof (mask_sum_bounds is_active (rows df)) as [Ha _].
  fold (active_count df) in Ha.
  set (a := active_count df) in *. set (d := den df today days) in *.
  assert (Hi : 0 < / d) by now apply Qinv_lt_0_compat.
  unfold Qdiv. split.
  - apply Qmult_le_0_compat; [|now apply Qlt_le_weak].
    change 0 with (inject_Z 0). now rewrite <- Zle_Qle.
  - split.
    + intros E. apply Qmult_integral in E. destruct E as [E|E].
      * unfold Qeq, inject_Z in E. simpl in E. lia.
      * rewrite E in Hi. now apply Qlt_irrefl in Hi.
    + intros ->. apply Qmult_0_l.
Qed.

Lemma X13_witness :
  let df := {| rows := [ {| Mls_Status := Some (lit "Active");
                            Close_Date := None;
                            List_Price := Some (lit "300000");
                            Close_Price := None;
                            Seller_Concessions := None |};
                         {| Mls_Status := Some (lit "Pending");
                            Close_Date := None;
                            List_Price := Some (lit "250000");
                            Close_Price := None;
                            Seller_Concessions := None |} ];
               has_concessions := false |} in
  ~ (sold_window_count df 0 90 = 0%Z /\ pending_count df = 0%Z) /\
  exists q : Q, moi df 0 90 = Finite q /\ 0 <= q.
Proof.
  intros df.
  assert (H : ~ (sold_window_count df 0 90 = 0%Z /\ pending_count df = 0%Z))
    by (intros [_ H]; vm_compute in H; discriminate).
  split; [exact H|].
  destruct (X13_moi_sign df 0 90 H) as (q & E & Hq & _).
  exists q. split; assumption.
Defined.

(** ** What a range says about the rows *)

Section RangeMembers.

Lemma fmin_le_r (a b : pyfloat) :
  isnan a = false -> isnan b = false -> fle (fmin a b) b = true.
Proof.
  intros Ha Hb. unfold fmin. destruct (flt b a) eqn:E.
  - now apply fle_refl.
  - now apply flt_false_fle.
Qed.

Lemma fmax_ge_r (a b : pyfloat) :
  isnan a = false -> isnan b = false -> fle b (fmax a b) = true.
Proof.
  intros Ha Hb. unfold fmax. destruct (flt a b) eqn:E.
  - now apply fle_refl.
  - now apply flt_false_fle.
Qed.

Lemma fold_fmin_lower (t : list pyfloat) : forall x y,
  isnan x = false -> no_nan t -> In y (x :: t) ->
  fle (fold_left fmin t x) y = true.
Proof.
  induction t as [|z t IH]; intros x y Hx Ht Hy.
  - destruct Hy as [<-|[]]. now apply fle_refl.
  - inversion Ht as [|? ? Hz Ht']; subst. cbn [fold_left].
    destruct (fmin_le_l x z Hx Hz) as [H1 H2].
    pose proof (fmin_le_r x z Hx Hz) as H3.
    assert (H0 : fle (fold_left fmin t (fmin x z)) (fmin x z) = true)
      by (apply IH; simpl; auto).
    destruct Hy as [<-|[<-|Hy]].
    + eapply fle_trans; eassumption.
    + eapply fle_trans; eassumption.
    + apply IH; simpl; auto.
Qed.

Lemma fold_fmax_upper (t : list pyfloat) : forall x y,
  isnan x = false -> no_nan t -> In y (x :: t) ->
  fle y (fold_left fmax t x) = true.
Proof.
  induction t as [|z t IH]; intros x y Hx Ht Hy.
  - destruct Hy as [<-|[]]. now apply fle_refl.
  - inversion Ht as [|? ? Hz Ht']; subst. cbn [fold_left].
    destruct (fmax_ge_l x z Hx Hz) as [H1 H2].
    pose proof (fmax_ge_r x z Hx Hz) as H3.
    assert (H0 : fle (fmax x z) (fold_left fmax t (fmax x z)) = true)
      by (apply IH; simpl; auto).
    destruct Hy as [<-|[<-|Hy]].
    + eapply fle_trans; eassumption.
    + eapply fle_trans; eassumption.
    + apply IH; simpl; auto.
Qed.

Lemma fold_pick_in (f : pyfloat -> pyfloat -> pyfloat) (t : list pyfloat) :
  (forall a b, f a b = a \/ f a b = b) ->
  forall x, In (fold_left f t x) (x :: t).
Proof.
  intros Hf. induction t as [|z t IH]; intros x; cbn [fold_left].
  - now left.
  - destruct (IH (f x z)) as [E|Hin].
    + rewrite <- E. destruct (Hf x z) as [->| ->]; simpl; auto.
    + simpl; auto.
Qed.

Lemma fmin_picks (a b : pyfloat) : fmin a b = a \/ fmin a b = b.
Proof. unfold fmin. destruct (flt b a); auto. Qed.

Lemma fmax_picks (a b : pyfloat) : fmax a b = a \/ fmax a b = b.
Proof. unfold fmax. destruct (flt a b); auto. Qed.

(** On a sample without NaN, the minimum and the maximum are members of
    the sample and bound every member. *)
Lemma min_max_of_sample (l : list pyfloat) :
  no_nan l -> l <> [] ->
  In (min_or_nan l) l /\ In (max_or_nan l) l /\
  forall y, In y l -> fle (min_or_nan l) y = true /\
                      fle y (max_or_nan l) = true.
Proof.
  intros Hl Hne. destruct l as [|x t]; [congruence|].
  inversion Hl as [|? ? Hx Ht]; subst. cbn [min_or_nan max_or_nan].
  split; [apply fold_pick_in, fmin_picks|].
  split; [apply fold_pick_in, fmax_picks|].
  intros y Hy. split.
  - now apply fold_fmin_lower.
  - now apply fold_fmax_upper.
Qed.

Variable mask : Row -> bool.
Variable value : Row -> pyfloat.
Variable l : list Row.

(** The sample taken from the rows under a mask, missing values dropped. *)
Lemma in_sample (x : pyfloat) :
  In x (dropna (map value (filter mask l))) <->
  isnan x = false /\ exists r, In r l /\ mask r = true /\ value r = x.
Proof.
  unfold dropna. rewrite filter_In, in_map_iff, negb_true_iff. split.
  - intros [[r [E Hr]] Hx]. apply filter_In in Hr. split; [exact Hx|].
    exists r. tauto.
  - intros [Hx [r (Hr & Hm & E)]]. split; [|exact Hx].
    exists r. split; [exact E|]. apply filter_In. tauto.
Qed.

Lemma sample_range_contains (r : Row) :
  In r l -> mask r = true -> isnan (value r) = false ->
  let sample := dropna (map value (filter mask l)) in
  fle (min_or_nan sample) (value r) = true /\
  fle (value r) (max_or_nan sample) = true.
Proof.
  intros Hr Hm Hv sample.
  assert (Hin : In (value r) sample)
    by (apply in_sample; split; [exact Hv | exists r; auto]).
  assert (Hne : sample <> []) by (intros E; rewrite E in Hin; exact Hin).
  destruct (min_max_of_sample sample (dropna_no_nan _) Hne) as (_ & _ & H).
  now apply H.
Qed.

Lemma sample_range_defined :
  let sample := dropna (map value (filter mask l)) in
  range_defined (min_or_nan sample) (max_or_nan sample) = true <->
  exists r, In r l /\ mask r = true /\ isnan (value r) = false.
Proof.
  intros sample.
  rewrite (range_defined_iff sample (dropna_no_nan _)). split.
  - intros Hne. destruct sample as [|x t] eqn:E; [congruence|].
    assert (Hx : In x sample) by (rewrite E; now left).
    apply in_sample in Hx. destruct Hx as [Hx [r (Hr & Hm & Ev)]].
    exists r. rewrite Ev. auto.
  - intros [r (Hr & Hm & Hv)] E.
    assert (Hin : In (value r) sample)
      by (apply in_sample; split; [exact Hv | exists r; auto]).
    rewrite E in Hin. exact Hin.
Qed.

Lemma sample_range_attained :
  let sample := dropna (map value (filter mask l)) in
  range_defined (min_or_nan sample) (max_or_nan sample) = true ->
  (exists r, In r l /\ mask r = true /\ value r = min_or_nan sample) /\
  (exists r, In r l /\ mask r = true /\ value r = max_or_nan sample).
Proof.
  intros sample Hd.
  apply (range_defined_iff sample (dropna_no_nan _)) in Hd.
  destruct (min_max_of_sample sample (dropna_no_nan _) Hd) as (Hmin & Hmax & _).
  apply in_sample in Hmin. apply in_sample in Hmax.
  destruct Hmin as [_ [r1 H1]]. destruct Hmax as [_ [r2 H2]].
  split; [exists r1 | exists r2]; tauto.
Qed.

End RangeMembers.

(** X14.  Each printed range holds every price it is drawn from: the list
    price of every active (pending) row with a parsed list price lies
    between the active (pending) minimum and maximum, and the net price
    of every row of the sold window with a net price lies between the
    sold minimum and maximum. *)
Theorem X14_range_contains_prices (df : DataFrame) (today days : Z) (r : Row) :
  In r (rows df) ->
  (is_active r = true -> isnan (_list_price r) = false ->
   fle (active_min df) (_list_price r) = true /\
   fle (_list_price r) (active_max df) = true) /\
  (is_pending r = true -> isnan (_list_price r) = false ->
   fle (pending_min df) (_list_price r) = true /\
   fle (_list_price r) (pending_max df) = true) /\
  (is_sold_window today days r = true -> isnan (net_price df r) = false ->
   fle (sold_net_min df today days) (net_price df r) = true /\
   fle (net_price df r) (sold_net_max df today days) = true).
Proof.
  intros Hr. repeat split.
  - now apply (sample_range_contains is_active _list_price (rows df) r).
  - now apply (sample_range_contains is_active _list_price (rows df) r).
  - now apply (sample_range_contains is_pending _list_price (rows df) r).
  - now apply (sample_range_contains is_pending _list_price (rows df) r).
  - now apply (sample_range_contains (is_sold_window today days)
                                     (net_price df) (rows df) r).
  - now apply (sample_range_contains (is_sold_window today days)
                                     (net_price df) (rows df) r).
Qed.

Lemma X14_witness :
  let a1 := {| Mls_Status := Some (lit "Active"); Close_Date := None;
               List_Price := Some (lit "$300,000"); Close_Price := None;
               Seller_Concessions := None |} in
  let a2 := {| Mls_Status := Some (lit "Coming Soon"); Close_Date := None;
               List_Price := Some (lit "275000"); Close_Price := None;
               Seller_Concessions := None |} in
  let a3 := {| Mls_Status := Some (lit "Back on Market"); Close_Date := None;
               List_Price := Some (lit "call agent"); Close_Price := None;
               Seller_Concessions := None |} in
  let df := {| rows := [a1; a2; a3]; has_concessions := false |} in
  In a1 (rows df) /\ is_active a1 = true /\ isnan (_list_price a1) = false /\
  fle (active_min df) (_list_price a1) = true /\
  fle (_list_price a1) (active_max df) = true.
Proof.
  intros a1 a2 a3 df.
  assert (Hin : In a1 (rows df)) by (simpl; auto).
  split; [exact Hin|]. split; [reflexivity|]. split; [reflexivity|].
  apply (proj1 (X14_range_contains_prices df 0 90 a1 Hin)); reflexivity.
Defined.

(** X15.  The ends of a printed range are prices of rows: when a range is
    defined, some row of its bucket (of the sold window) has the minimum
    as its price and some row has the maximum. *)
Theorem X15_range_ends_attained (df : DataFrame) (today days : Z) :
  (range_defined (active_min df) (active_max df) = true ->
   (exists r, In r (rows df) /\ is_active r = true /\
              _list_price r = active_min df) /\
   (exists r, In r (rows df) /\ is_active r = true /\
              _list_price r = active_max df)) /\
  (range_defined (pending_min df) (pending_max df) = true ->
   (exists r, In r (rows df) /\ is_pending r = true /\
              _list_price r = pending_min df) /\
   (exists r, In r (rows df) /\ is_pending r = true /\
              _list_price r = pending_max df)) /\
  (range_defined (sold_net_min df today days) (sold_net_max df today days) = true ->
   (exists r, In r (rows df) /\ is_sold_window today days r = true /\
              net_price df r = sold_net_min df today days) /\
   (exists r, In r (rows df) /\ is_sold_window today days r = true /\
              net_price df r = sold_net_max df today days)).
Proof.
  split; [|split].
  - apply (sample_range_attained is_active _list_price (rows df)).
  - apply (sample_range_attained is_pending _list_price (rows df)).
  - apply (sample_range_attained (is_sold_window today days)
                                 (net_price df) (rows df)).
Qed.

Lemma X15_witness :
  let a1 := {| Mls_Status := Some (lit "Active"); Close_Date := None;
               List_Price := Some (lit "$300,000"); Close_Price := None;
               Seller_Concessions := None |} in
  let a2 := {| Mls_Status := Some (lit "Coming Soon"); Close_Date := None;
               List_Price := Some (lit "275000"); Close_Price := None;
               Seller_Concessions := None |} in
  let df := {| rows := [a1; a2]; has_concessions := false |} in
  range_defined (active_min df) (active_max df) = true /\
  exists r, In r (rows df) /\ is_active r = true /\
            _list_price r = active_min df.
Proof.
  intros a1 a2 df.
  assert (H : range_defined (active_min df) (active_max df) = true)
    by reflexivity.
  split; [exact H|].
  exact (proj1 (proj1 (X15_range_ends_attained df 0 90) H)).
Defined.

(** X16.  A range is printed exactly when a row feeds it: the active
    (pending) range is defined if and only if some active (pending) row
    has a list price that parses, and the sold range if and only if some
    row of the sold window has a net price; otherwise both ends are NaN
    and the report prints N/A. *)
Theorem X16_range_defined_iff (df : DataFrame) (today days : Z) :
  (range_defined (active_min df) (active_max df) = true <->
   exists r, In r (rows df) /\ is_active r = true /\
             isnan (_list_price r) = false) /\
  (range_defined (pending_min df) (pending_max df) = true <->
   exists r, In r (rows df) /\ is_pending r = true /\
             isnan (_list_price r) = false) /\
  (range_defined (sold_net_min df today days) (sold_net_max df today days) = true <->
   exists r, In r (rows df) /\ is_sold_window today days r = true /\
             isnan (net_price df r) = false).
Proof.
  split; [|split].
  - apply (sample_range_defined is_active _list_price (rows df)).
  - apply (sample_range_defined is_pending _list_price (rows df)).
  - apply (sample_range_defined (is_sold_window today days)
                                (net_price df) (rows df)).
Qed.

(** ** Days in MLS *)

Section DomFacts.

Lemma loc_mask_subset (mask : Row -> bool) (l : list Row) : forall col x,
  In x (loc_mask mask l col) -> In x col.
Proof.
  unfold loc_mask. induction l as [|r l IH]; intros [|c col] x; simpl; try tauto.
  destruct (mask r); simpl; intros H.
  - destruct H as [H|H]; [now left | right; now apply IH].
  - right; now apply IH.
Qed.

Lemma loc_mask_length (mask : Row -> bool) (l : list Row) : forall col,
  (Z.of_nat (List.length (loc_mask mask l col)) <= mask_sum mask l)%Z.
Proof.
  unfold loc_mask. induction l as [|r l IH]; intros [|c col].
  - simpl; lia.
  - simpl; lia.
  - simpl. pose proof (mask_sum_bounds mask l). destruct (mask r); lia.
  - cbn [combine filter fst mask_sum fold_right]. fold (mask_sum mask l).
    specialize (IH col). destruct (mask r); cbn [map List.length]; lia.
Qed.

Lemma dropna_length (l : list pyfloat) :
  (List.length (dropna l) <= List.length l)%nat.
Proof. apply filter_length_le. Qed.

Lemma dropna_all_nan (l : list pyfloat) :
  (forall x, In x l -> x = NaN) -> dropna l = [].
Proof.
  intros H. unfold dropna. induction l as [|x l IH]; [reflexivity|].
  simpl. rewrite (H x (or_introl eq_refl)). simpl.
  apply IH. intros y Hy. apply H. now right.
Qed.

End DomFacts.

(** X17.  In a frame with neither day-count column the average and the
    median of the days in MLS are both missing, whatever the rows, the
    reference time and the window. *)
Theorem X17_no_day_column (to_numeric : str -> pyfloat) (df : DataFrame)
                          (today days : Z) :
  let dc := {| DaysInMLS := None; Days_in_MLS := None |} in
  List.length (_dom to_numeric df dc) = List.length (rows df) /\
  avg_dom to_numeric df dc today days = NaN /\
  median_dom to_numeric df dc today days = NaN.
Proof.
  intros dc.
  assert (E : dom_series to_numeric df dc today days = []).
  { unfold dom_series. apply dropna_all_nan. intros x Hx.
    apply loc_mask_subset in Hx. unfold _dom, get_dom_series in Hx.
    simpl in Hx. now apply repeat_spec in Hx. }
  split; [apply repeat_length|].
  unfold avg_dom, median_dom. now rewrite E.
Qed.

Section DaySample.

Lemma in_combine_nth (r : Row) (x : pyfloat) (l : list Row) : forall col,
  In (r, x) (combine l col) <->
  exists i, nth_error l i = Some r /\ nth_error col i = Some x.
Proof.
  induction l as [|r0 l IH]; intros [|x0 col]; simpl.
  - split; [tauto | intros [[|i] [H _]]; discriminate].
  - split; [tauto | intros [[|i] [H _]]; discriminate].
  - split; [tauto | intros [[|i] [_ H]]; discriminate].
  - rewrite IH. split.
    + intros [[= <- <-]|[i Hi]]; [exists 0%nat; auto | exists (S i); auto].
    + intros [[|i] [H1 H2]]; simpl in H1, H2.
      * left. congruence.
      * right. exists i. auto.
Qed.

(** The values that [df.loc[mask, column]] keeps are the values of the
    column at the positions of the rows under the mask. *)
Lemma in_loc_mask (mask : Row -> bool) (l : list Row) (col : list pyfloat)
                  (x : pyfloat) :
  In x (loc_mask mask l col) <->
  exists i r, nth_error l i = Some r /\ nth_error col i = Some x /\
              mask r = true.
Proof.
  unfold loc_mask. rewrite in_map_iff. split.
  - intros [[r y] [E H]]. simpl in E. subst y.
    apply filter_In in H. destruct H as [H Hm]. simpl in Hm.
    apply in_combine_nth in H. destruct H as [i [H1 H2]].
    exists i, r. auto.
  - intros (i & r & H1 & H2 & Hm). exists (r, x). split; [reflexivity|].
    apply filter_In. split; [|exact Hm].
    apply in_combine_nth. exists i. auto.
Qed.

End DaySample.

(** X18.  The day statistics are taken over rows of the sold window only:
    a value is in the sample of day counts exactly when it is not missing
    and is the day count of a row that is in the sold window; and the
    sample never has more values than the sold-window count. *)
Theorem X18_day_sample_within_window (to_numeric : str -> pyfloat)
    (df : DataFrame) (dc : DomColumns) (today days : Z) :
  (forall x : pyfloat,
     In x (dom_series to_numeric df dc today days) <->
     isnan x = false /\
     exists i r, nth_error (rows df) i = Some r /\
                 nth_error (_dom to_numeric df dc) i = Some x /\
                 is_sold_window today days r = true) /\
  (Z.of_nat (List.length (dom_series to_numeric df dc today days))
   <= sold_window_count df today days)%Z.
Proof.
  split.
  - intros x. unfold dom_series, dropna.
    rewrite filter_In, negb_true_iff, in_loc_mask. tauto.
  - unfold dom_series, sold_window_count.
    pose proof (dropna_length
      (loc_mask (is_sold_window today days) (rows df) (_dom to_numeric df dc))).
    pose proof (loc_mask_length (is_sold_window today days) (rows df)
                                (_dom to_numeric df dc)).
    lia.
Qed.

(** ** The sorted sample *)

Section MeanMedian.

Lemma insert_sorted_in (x y : pyfloat) (l : list pyfloat) :
  In y (insert_sorted x l) <-> y = x \/ In y l.
Proof.
  induction l as [|z l IH]; simpl; [intuition|].
  destruct (fle x z); simpl; rewrite ?IH; intuition.
Qed.

Lemma insert_sorted_length (x : pyfloat) (l : list pyfloat) :
  List.length (insert_sorted x l) = S (List.length l).
Proof.
  induction l as [|z l IH]; simpl; [reflexivity|].
  destruct (fle x z); simpl; [reflexivity | now rewrite IH].
Qed.

Lemma sort_values_in (y : pyfloat) (l : list pyfloat) :
  In y (sort_values l) <-> In y l.
Proof.
  unfold sort_values. induction l as [|x l IH]; simpl; [tauto|].
  rewrite insert_sorted_in, IH. intuition.
Qed.

Lemma sort_values_length (l : list pyfloat) :
  List.length (sort_values l) = List.length l.
Proof.
  unfold sort_values. induction l as [|x l IH]; simpl; [reflexivity|].
  now rewrite insert_sorted_length, IH.
Qed.

(** Inserting keeps the order, on values that compare. *)
Lemma insert_sorted_ascending (x : pyfloat) (l : list pyfloat) :
  isnan x = false -> no_nan l ->
  ascending l = true -> ascending (insert_sorted x l) = true.
Proof.
  intros Hx. induction l as [|y l IH]; intros Hl Ha; [reflexivity|].
  inversion Hl as [|? ? Hy Hl']; subst. cbn [insert_sorted].
  destruct (fle x y) eqn:E.
  - cbn [ascending]. now rewrite E.
  - assert (Hyx : fle y x = true).
    { destruct x, y; simpl in *; try discriminate; try reflexivity.
      apply Qle_bool_iff. apply Qlt_le_weak. apply Qnot_le_lt.
      rewrite <- Qle_bool_iff. congruence. }
    assert (Ha' : ascending l = true).
    { destruct l as [|z l]; [reflexivity|].
      cbn [ascending] in Ha. now apply andb_true_iff in Ha. }
    specialize (IH Hl' Ha').
    destruct l as [|z l]; cbn [insert_sorted ascending] in *.
    + now rewrite Hyx.
    + apply andb_true_iff in Ha. destruct Ha as [Hyz _].
      destruct (fle x z); cbn [ascending] in *.
      * now rewrite Hyx, IH.
      * now rewrite Hyz, IH.
Qed.

Lemma no_nan_insert (x : pyfloat) (l : list pyfloat) :
  isnan x = false -> no_nan l -> no_nan (insert_sorted x l).
Proof.
  intros Hx Hl. apply Forall_forall. intros y Hy.
  apply insert_sorted_in in Hy. destruct Hy as [->|Hy]; [exact Hx|].
  unfold no_nan in Hl. rewrite Forall_forall in Hl. now apply Hl.
Qed.

Lemma sort_values_ascending (l : list pyfloat) :
  no_nan l -> ascending (sort_values l) = true /\ no_nan (sort_values l).
Proof.
  unfold sort_values. induction l as [|x l IH]; intros Hl.
  - split; [reflexivity | constructor].
  - inversion Hl as [|? ? Hx Hl']; subst. destruct (IH Hl') as [Ha Hn].
    cbn [fold_right]. split.
    + now apply insert_sorted_ascending.
    + now apply no_nan_insert.
Qed.

End MeanMedian.

Section MiddleValue.

Lemma insert_sorted_perm (x : pyfloat) (l : list pyfloat) :
  Permutation (insert_sorted x l) (x :: l).
Proof.
  induction l as [|y l IH]; simpl; [apply Permutation_refl|].
  destruct (fle x y); [apply Permutation_refl|].
  eapply perm_trans; [apply perm_skip, IH | apply perm_swap].
Qed.

Lemma sort_values_perm (l : list pyfloat) : Permutation (sort_values l) l.
Proof.
  unfold sort_values. induction l as [|x l IH]; simpl; [constructor|].
  eapply perm_trans; [apply insert_sorted_perm | now apply perm_skip].
Qed.

Lemma filter_length_perm (f : pyfloat -> bool) (l l' : list pyfloat) :
  Permutation l l' ->
  List.length (filter f l) = List.length (filter f l').
Proof.
  induction 1 as [|x l l' _ IH|x y l|l l' l'' _ IH1 _ IH2]; simpl.
  - reflexivity.
  - destruct (f x); simpl; now rewrite IH.
  - destruct (f x), (f y); reflexivity.
  - now rewrite IH1.
Qed.

(** In an ascending list without NaN the first value is below the
    others. *)
Lemma ascending_head (x : pyfloat) (t : list pyfloat) :
  no_nan (x :: t) -> ascending (x :: t) = true ->
  forall y, In y (x :: t) -> fle x y = true.
Proof.
  revert x. induction t as [|z t IH]; intros x Hn Ha y Hy.
  - destruct Hy as [<-|[]]. inversion Hn; subst. now apply fle_refl.
  - inversion Hn as [|? ? Hx Hn']; subst.
    cbn [ascending] in Ha. apply andb_true_iff in Ha. destruct Ha as [Hxz Ha].
    destruct Hy as [<-|Hy]; [now apply fle_refl|].
    eapply fle_trans; [exact Hxz | now apply IH].
Qed.

Lemma ascending_tail (x : pyfloat) (t : list pyfloat) :
  ascending (x :: t) = true -> ascending t = true.
Proof.
  destruct t as [|z t]; [reflexivity|]. cbn [ascending].
  rewrite andb_true_iff. tauto.
Qed.

Lemma ascending_nth (s : list pyfloat) : forall i j,
  no_nan s -> ascending s = true ->
  (i <= j)%nat -> (j < List.length s)%nat ->
  fle (nth i s NaN) (nth j s NaN) = true.
Proof.
  induction s as [|x t IH]; intros i j Hn Ha Hij Hj; [simpl in Hj; lia|].
  destruct i as [|i].
  - apply (ascending_head x t Hn Ha). apply nth_In. exact Hj.
  - destruct j as [|j]; [lia|]. simpl in Hj |- *.
    inversion Hn; subst.
    apply IH; [assumption | now apply ascending_tail in Ha | lia | lia].
Qed.

Lemma filter_count_first (f : pyfloat -> bool) (s : list pyfloat) : forall k,
  (k < List.length s)%nat ->
  (forall i, (i <= k)%nat -> f (nth i s NaN) = true) ->
  (k + 1 <= List.length (filter f s))%nat.
Proof.
  induction s as [|x t IH]; intros k Hk H; [simpl in Hk; lia|].
  pose proof (H 0%nat ltac:(lia)) as H0. simpl in H0. simpl. rewrite H0.
  simpl. destruct k as [|k]; [lia|].
  assert (Hk' : (k < List.length t)%nat) by (simpl in Hk; lia).
  specialize (IH k Hk' (fun i Hi => H (S i) ltac:(lia))). lia.
Qed.

Lemma filter_count_last (f : pyfloat -> bool) (s : list pyfloat) : forall k,
  (forall i, (k <= i)%nat -> (i < List.length s)%nat ->
             f (nth i s NaN) = true) ->
  (List.length s - k <= List.length (filter f s))%nat.
Proof.
  induction s as [|x t IH]; intros k H; [simpl; lia|].
  destruct k as [|k].
  - pose proof (H 0%nat ltac:(lia) ltac:(simpl; lia)) as H0.
    simpl in H0. simpl. rewrite H0. simpl.
    specialize (IH 0%nat (fun i Hi Hl => H (S i) ltac:(lia) ltac:(simpl; lia))).
    lia.
  - specialize (IH k (fun i Hi Hl => H (S i) ltac:(lia) ltac:(simpl; lia))).
    simpl. destruct (f x); simpl; lia.
Qed.

(** The middle value of an odd number of values: a member of the sample,
    with more than half of the sample at or below it and more than half
    at or above it. *)
Lemma median_of_odd_sample (l : list pyfloat) :
  no_nan l -> Nat.odd (List.length l) = true ->
  let med := median_or_nan l in
  In med l /\
  (List.length l < 2 * List.length (filter (fun x => fle x med) l))%nat /\
  (List.length l < 2 * List.length (filter (fun x => fle med x) l))%nat.
Proof.
  intros Hn Hodd.
  assert (Hne : l <> []) by (intros ->; discriminate).
  destruct (sort_values_ascending l Hn) as [Hasc Hns].
  pose proof (sort_values_length l) as Hlen.
  pose proof (sort_values_perm l) as Hperm.
  assert (Hev : Nat.even (List.length l) = false)
    by (rewrite <- Nat.negb_odd, Hodd; reflexivity).
  unfold median_or_nan. destruct l as [|x0 t] eqn:El; [congruence|].
  rewrite <- El in *. cbv zeta. rewrite Hlen, Hev.
  set (n := List.length l) in *. set (s := sort_values l) in *.
  assert (Hpos : (0 < n)%nat) by (subst n; rewrite El; simpl; lia).
  assert (Hk : (n / 2 < n)%nat) by (apply Nat.div_lt; lia).
  assert (Hn2 : (n = 2 * (n / 2) + 1)%nat).
  { pose proof (Nat.div_mod_eq n 2) as Hd.
    assert (Hm : (n mod 2 = 1)%nat).
    { pose proof (Nat.mod_upper_bound n 2 ltac:(lia)).
      destruct (Nat.eq_dec (n mod 2) 0) as [E0|E0]; [|lia].
      apply Nat.Div0.mod_divides in E0. destruct E0 as [c Ec].
      assert (Nat.even n = true) by (rewrite Ec; apply Nat.even_even).
      congruence. }
    lia. }
  split; [|split].
  - eapply Permutation_in; [exact Hperm|]. apply nth_In. now rewrite Hlen.
  - rewrite <- (filter_length_perm _ _ _ Hperm).
    pose proof (filter_count_first
                  (fun x => fle x (nth (n / 2) s NaN)) s (n / 2)
                  ltac:(now rewrite Hlen)) as Hc.
    assert (Hall : forall i, (i <= n / 2)%nat ->
                   fle (nth i s NaN) (nth (n / 2) s NaN) = true).
    { intros i Hi. apply ascending_nth; try assumption. now rewrite Hlen. }
    specialize (Hc Hall). lia.
  - rewrite <- (filter_length_perm _ _ _ Hperm).
    pose proof (filter_count_last
                  (fun x => fle (nth (n / 2) s NaN) x) s (n / 2)) as Hc.
    assert (Hall : forall i, (n / 2 <= i)%nat -> (i < List.length s)%nat ->
                   fle (nth (n / 2) s NaN) (nth i s NaN) = true).
    { intros i Hi Hl. now apply ascending_nth. }
    specialize (Hc Hall). rewrite Hlen in Hc. lia.
Qed.

(** The mean of a single value is that value. *)
Lemma mean_of_one (v : pyfloat) :
  isnan v = false -> same_value (mean_or_nan [v]) v.
Proof.
  destruct v as [| | |q]; try discriminate; intros _; simpl; try exact I.
  unfold Qeq, Qdiv, Qmult, Qinv, Qplus, inject_Z. simpl. lia.
Qed.

End MiddleValue.

(** X19.  When the sample of day counts has an odd number of values, the
    median of the days in MLS is one of the values of the sample, it lies
    between the smallest and the largest of them, and more than half of
    the sample is at or below it and more than half at or above it.  When
    the sample has a single value, the average is that value too. *)
Theorem X19_day_median_of_odd_sample (to_numeric : str -> pyfloat)
    (df : DataFrame) (dc : DomColumns) (today days : Z) :
  let sample := dom_series to_numeric df dc today days in
  let med := median_dom to_numeric df dc today days in
  (Nat.odd (List.length sample) = true ->
   In med sample /\
   fle (min_or_nan sample) med = true /\
   fle med (max_or_nan sample) = true /\
   (List.length sample
    < 2 * List.length (filter (fun x => fle x med) sample))%nat /\
   (List.length sample
    < 2 * List.length (filter (fun x => fle med x) sample))%nat) /\
  (forall v, sample = [v] ->
     med = v /\ same_value (avg_dom to_numeric df dc today days) v).
Proof.
  intros sample med.
  assert (Hn : no_nan sample) by apply dropna_no_nan.
  split.
  - intros Hodd.
    destruct (median_of_odd_sample sample Hn Hodd) as (Hin & Hle & Hge).
    fold med in Hin, Hle, Hge.
    assert (Hne : sample <> []) by (intros E; rewrite E in Hin; exact Hin).
    destruct (min_max_of_sample sample Hn Hne) as (_ & _ & Hb).
    destruct (Hb med Hin) as [H1 H2]. auto.
  - intros v E. unfold med, median_dom, avg_dom. fold sample. rewrite E.
    split; [reflexivity|]. apply mean_of_one.
    rewrite E in Hn. now inversion Hn.
Qed.

Lemma X19_witness :
  let to_numeric := fun s => match py_float s with Some f => f | None => NaN end in
  let sold d := {| Mls_Status := Some (lit "Closed");
                   Close_Date := Some (d * ns_per_day)%Z;
                   List_Price := None;
                   Close_Price := Some (lit "280000");
                   Seller_Concessions := None |} in
  let df := {| rows := [sold (-5)%Z; sold (-10)%Z; sold (-20)%Z; sold (-30)%Z;
                        sold (-400)%Z];
               has_concessions := false |} in
  let dc := {| DaysInMLS := Some [Some (lit "45"); Some (lit "1,200"); None;
                                  Some (lit "10"); Some (lit "7")];
               Days_in_MLS := None |} in
  let sample := dom_series to_numeric df dc 0 90 in
  Nat.odd (List.length sample) = true /\
  List.length sample = 3%nat /\
  same_value (median_dom to_numeric df dc 0 90) (Finite 45) /\
  In (median_dom to_numeric df dc 0 90) sample /\
  fle (min_or_nan sample) (median_dom to_numeric df dc 0 90) = true.
Proof.
  intros to_numeric sold df dc sample.
  assert (Hodd : Nat.odd (List.length sample) = true) by reflexivity.
  destruct (proj1 (X19_day_median_of_odd_sample to_numeric df dc 0 90) Hodd)
    as (H1 & H2 & _).
  split; [exact Hodd|]. split; [reflexivity|].
  split; [vm_compute; reflexivity|]. split; [exact H1 | exact H2].
Defined.

(** ** The header check *)

Section HeaderFacts.

Lemma in_columns_iff (c : str) (columns : list str) :
  in_columns c columns = true <-> In c columns.
Proof.
  unfold in_columns. rewrite existsb_exists. split.
  - intros [x [Hx E]]. apply str_eqb_eq in E. now subst.
  - intros H. exists c. split; [exact H | now apply str_eqb_eq].
Qed.

Lemma missing_iff (columns : list str) (c : str) :
  In c (missing columns) <-> In c REQUIRED_COLUMNS /\ ~ In c columns.
Proof.
  unfold missing. rewrite filter_In, negb_true_iff.
  rewrite <- not_true_iff_false, in_columns_iff. tauto.
Qed.

End HeaderFacts.

(** X20.  The run goes on exactly when each of the four required column
    names is among the columns of the file, whatever their order and
    whatever other columns there are; when it stops, the names it reports
    are exactly the required names that are absent. *)
Theorem X20_header_check (columns : list str) :
  ((exists b, check_header columns = Go b) <->
   forall c, In c REQUIRED_COLUMNS -> In c columns) /\
  (forall m, check_header columns = Stop m ->
     m <> [] /\
     forall c, In c m <-> In c REQUIRED_COLUMNS /\ ~ In c columns).
Proof.
  unfold check_header. pose proof (missing_iff columns) as Hm.
  destruct (missing columns) as [|m0 m] eqn:E.
  - split.
    + split; [|intros _; eexists; reflexivity].
      intros _ c Hc. destruct (in_columns c columns) eqn:Ec.
      * now apply in_columns_iff.
      * exfalso. apply (proj2 (Hm c)). split; [exact Hc|].
        rewrite <- in_columns_iff. congruence.
    + intros m' H. discriminate.
  - split.
    + split; [intros [b H]; discriminate|].
      intros H. exfalso.
      destruct (proj1 (Hm m0) (or_introl eq_refl)) as [Hr Hn].
      apply Hn, H, Hr.
    + intros m' [= <-]. split; [discriminate | exact Hm].
Qed.

Lemma X20_witness :
  let columns := [lit "Close Price"; lit "Mls Status"; lit "Address";
                  lit "List Price"; lit "Seller Concessions"] in
  check_header columns = Stop [lit "Close Date"] /\
  (In (lit "Close Date") [lit "Close Date"] <->
   In (lit "Close Date") REQUIRED_COLUMNS /\ ~ In (lit "Close Date") columns).
Proof.
  intros columns.
  assert (H : check_header columns = Stop [lit "Close Date"]) by reflexivity.
  split; [exact H|].
  apply (proj2 (proj2 (X20_header_check columns) _ H)).
Defined.

(* ================================================================== *)
(** * Part IV.  The float parser against the grammar *)
(* ================================================================== *)

Section GrammarFacts.

Lemma exponent_mark_facts (c : ascii) :
  lower_char c = "e"%char ->
  is_digit c = false /\ Ascii.eqb c "_" = false /\ Ascii.eqb c "." = false /\
  Ascii.eqb c "+" = false /\ Ascii.eqb c "-" = false.
Proof.
  destruct c as [[] [] [] [] [] [] [] []]; vm_compute;
    first [ discriminate | intros _; repeat split ].
Qed.

Lemma split_sign_plain (c : ascii) (t : str) :
  Ascii.eqb c "+" = false -> Ascii.eqb c "-" = false ->
  split_sign (c :: t) = (false, c :: t).
Proof.
  destruct c as [[] [] [] [] [] [] [] []]; vm_compute;
    first [ discriminate | reflexivity ].
Qed.

Lemma split_sign_text (s : str) :
  exists sg, s = sg ++ snd (split_sign s) /\ sign_text sg (fst (split_sign s)).
Proof.
  destruct s as [|c t]; [exists []; split; [reflexivity | constructor]|].
  destruct (Ascii.eqb c "+") eqn:Ep.
  { apply Ascii.eqb_eq in Ep. subst c. exists ["+"%char].
    split; [reflexivity | constructor]. }
  destruct (Ascii.eqb c "-") eqn:Em.
  { apply Ascii.eqb_eq in Em. subst c. exists ["-"%char].
    split; [reflexivity | constructor]. }
  rewrite (split_sign_plain c t Ep Em). exists [].
  split; [reflexivity | constructor].
Qed.

(** After an optional sign, a text whose first character is not a sign
    is split as the grammar says. *)
Lemma split_sign_of_text (sg : str) (neg : bool) (c : ascii) (t : str) :
  sign_text sg neg ->
  Ascii.eqb c "+" = false -> Ascii.eqb c "-" = false ->
  split_sign (sg ++ c :: t) = (neg, c :: t).
Proof.
  intros Hs Ep Em. destruct Hs; simpl app.
  - now apply split_sign_plain.
  - reflexivity.
  - reflexivity.
Qed.

Lemma underscore_not_digit : is_digit "_" = false.
Proof. reflexivity. Qed.

(** The parser reads a whole tail when what follows ends the digits. *)
Lemma digitpart_tail_complete (ds : str) :
  tail_text ds -> forall acc cnt rest,
  ends_digits rest = true ->
  digitpart_tail acc cnt (ds ++ rest) =
  (digits_value acc (filter is_digit ds),
   (cnt + Z.of_nat (List.length (filter is_digit ds)))%Z, rest).
Proof.
  induction 1 as [|d r Hd Hr IH|d r Hd Hr IH]; intros acc cnt rest Hrest.
  - simpl. rewrite Z.add_0_r. destruct rest as [|c t]; [reflexivity|].
    simpl in Hrest. apply andb_true_iff in Hrest. destruct Hrest as [H1 H2].
    apply negb_true_iff in H1, H2. simpl. now rewrite H1, H2.
  - cbn [app digitpart_tail filter]. rewrite Hd.
    rewrite (IH _ _ rest Hrest).
    cbn [digits_value fold_left List.length]. do 2 f_equal. lia.
  - cbn [app digitpart_tail filter]. rewrite underscore_not_digit.
    rewrite Ascii.eqb_refl. cbn [andb starts_with_digit]. rewrite !Hd.
    cbn [digitpart_tail]. rewrite ?Hd. rewrite (IH _ _ rest Hrest).
    cbn [digits_value fold_left List.length]. do 2 f_equal. lia.
Qed.

Lemma digitpart_complete (ds : str) (acc : Z) (rest : str) :
  digitpart_text ds -> ends_digits rest = true ->
  digitpart acc (ds ++ rest) =
  Some (digits_value acc (filter is_digit ds),
        Z.of_nat (List.length (filter is_digit ds)), rest).
Proof.
  intros [d r Hd Hr] Hrest. cbn [app digitpart filter]. rewrite Hd.
  rewrite (digitpart_tail_complete r Hr _ _ rest Hrest).
  cbn [digits_value fold_left List.length]. do 3 f_equal. lia.
Qed.

(** What the parser reads after a first digit is a tail of the grammar,
    and it stops where the digits end. *)
Lemma digitpart_tail_sound (s : str) : forall acc cnt m k r,
  digitpart_tail acc cnt s = (m, k, r) ->
  exists ds, s = ds ++ r /\ tail_text ds /\
             m = digits_value acc (filter is_digit ds) /\
             k = (cnt + Z.of_nat (List.length (filter is_digit ds)))%Z /\
             (forall d t, s = d :: t -> is_digit d = true ->
                exists ds', ds = d :: ds' /\ tail_text ds').
Proof.
  induction s as [|c t IH]; intros acc cnt m k r.
  - simpl. intros [= <- <- <-]. exists []. repeat split.
    + constructor.
    + simpl. lia.
    + discriminate.
  - cbn [digitpart_tail]. destruct (is_digit c) eqn:Ed.
    + intros H. destruct (IH _ _ _ _ _ H) as (ds & E & Ht & Em & Ek & _).
      exists (c :: ds). cbn [filter]. rewrite Ed.
      split; [simpl; now rewrite E|]. split; [now constructor|].
      split; [exact Em|]. split; [cbn [List.length]; lia|].
      intros d t' [= <- <-] _. exists ds. auto.
    + destruct (Ascii.eqb c "_" && starts_with_digit t) eqn:Eu.
      * apply andb_true_iff in Eu. destruct Eu as [Ec Est].
        apply Ascii.eqb_eq in Ec. subst c.
        destruct t as [|d t']; [discriminate|]. simpl in Est.
        intros H. destruct (IH _ _ _ _ _ H) as (ds & E & Ht & Em & Ek & Hhd).
        destruct (Hhd d t' eq_refl Est) as (ds' & -> & Ht').
        exists ("_"%char :: d :: ds'). cbn [filter] in *.
        rewrite underscore_not_digit. rewrite Est in *.
        split; [simpl in *; now rewrite E|]. split; [now constructor|].
        split; [exact Em|]. split; [exact Ek|].
        intros d0 t0 [= <- <-] Hd0. discriminate.
      * intros [= <- <- <-]. exists []. repeat split.
        -- constructor.
        -- simpl. lia.
        -- intros d t0 [= <- <-] Hd. congruence.
Qed.

Lemma digitpart_sound (s : str) (acc m k : Z) (r : str) :
  digitpart acc s = Some (m, k, r) ->
  exists ds, s = ds ++ r /\ digitpart_text ds /\
             m = digits_value acc (filter is_digit ds) /\
             k = Z.of_nat (List.length (filter is_digit ds)).
Proof.
  destruct s as [|c t]; [discriminate|]. cbn [digitpart].
  destruct (is_digit c) eqn:Ed; [|discriminate]. intros [= H].
  destruct (digitpart_tail_sound t _ _ _ _ _ H) as (ds & E & Ht & Em & Ek & _).
  exists (c :: ds). cbn [filter]. rewrite Ed.
  split; [simpl; now rewrite E|]. split; [now constructor|].
  split; [exact Em|]. cbn [List.length]. lia.
Qed.

(** Digits and the point are not signs and do not begin a word. *)
Lemma number_head_facts (c : ascii) :
  is_digit c = true \/ c = "."%char ->
  Ascii.eqb c "+" = false /\ Ascii.eqb c "-" = false /\
  Ascii.eqb (lower_char c) "i" = false /\
  Ascii.eqb (lower_char c) "n" = false.
Proof.
  intros [H| ->]; [|repeat split]. revert H.
  destruct c as [[] [] [] [] [] [] [] []]; vm_compute;
    first [ discriminate | intros _; repeat split ].
Qed.

Lemma word_head_facts (c : ascii) :
  lower_char c = "i"%char \/ lower_char c = "n"%char ->
  Ascii.eqb c "+" = false /\ Ascii.eqb c "-" = false.
Proof.
  destruct c as [[] [] [] [] [] [] [] []]; vm_compute;
    first [ intros [H|H]; discriminate | intros _; split; reflexivity ].
Qed.

Lemma not_a_word (c : ascii) (t : str) :
  Ascii.eqb (lower_char c) "i" = false ->
  Ascii.eqb (lower_char c) "n" = false ->
  str_eqb (lower (c :: t)) (lit "inf") = false /\
  str_eqb (lower (c :: t)) (lit "infinity") = false /\
  str_eqb (lower (c :: t)) (lit "nan") = false.
Proof.
  intros Hi Hn. cbn [lower map lit list_ascii_of_string str_eqb].
  rewrite Hi, Hn. repeat split.
Qed.

Lemma number_text_head (n : str) (m k : Z) :
  number_text n m k ->
  exists c t, n = c :: t /\ (is_digit c = true \/ c = "."%char).
Proof.
  intros [ip [d r Hd _]|ip [d r Hd _]|fp _|ip fp [d r Hd _] _]; simpl;
    eauto.
Qed.

(** Where an exponent, possibly empty, begins. *)
Lemma exponent_text_head (x : str) (e : Z) :
  exponent_text x e ->
  match x with [] => True | c :: _ => lower_char c = "e"%char end.
Proof. intros [|c sg neg ds Hc _ _]; [exact I | exact Hc]. Qed.

Lemma exponent_head_ends (x : str) :
  match x with [] => True | c :: _ => lower_char c = "e"%char end ->
  ends_digits x = true /\ forall acc, digitpart acc x = None.
Proof.
  destruct x as [|c t]; [intros _; repeat split|]. intros Hc.
  destruct (exponent_mark_facts c Hc) as (Hd & Hu & _).
  cbn [ends_digits digitpart]. rewrite Hd, Hu. repeat split.
Qed.

Lemma number_complete (n : str) (m k : Z) (x : str) :
  number_text n m k ->
  match x with [] => True | c :: _ => lower_char c = "e"%char end ->
  number (n ++ x) = Some (m, k, x).
Proof.
  intros Hn Hx. destruct (exponent_head_ends x Hx) as (He & Hnone).
  unfold number.
  destruct Hn as [ip Hip|ip Hip|fp Hfp|ip fp Hip Hfp].
  - rewrite (digitpart_complete ip 0 x Hip He).
    destruct x as [|c t]; [reflexivity|].
    destruct (exponent_mark_facts c Hx) as (_ & _ & Hp & _).
    now rewrite Hp.
  - rewrite <- app_assoc. cbn [app].
    rewrite (digitpart_complete ip 0 ("."%char :: x) Hip eq_refl).
    rewrite Ascii.eqb_refl. now rewrite Hnone.
  - cbn [app digitpart]. change (is_digit ".") with false. cbv iota.
    rewrite Ascii.eqb_refl.
    now rewrite (digitpart_complete fp 0 x Hfp He).
  - rewrite <- app_assoc. cbn [app].
    rewrite (digitpart_complete ip 0 ("."%char :: fp ++ x) Hip eq_refl).
    rewrite Ascii.eqb_refl.
    rewrite (digitpart_complete fp _ x Hfp He).
    unfold numeral_value, digit_count.
    now rewrite filter_app, digits_value_app.
Qed.

Lemma number_sound (r : str) (m k : Z) (x : str) :
  number r = Some (m, k, x) ->
  exists n, r = n ++ x /\ number_text n m k.
Proof.
  unfold number. destruct (digitpart 0 r) as [[[ipv k0] r0]|] eqn:E.
  - apply digitpart_sound in E. destruct E as (ip & -> & Hip & -> & _).
    destruct r0 as [|c r1].
    { intros [= <- <- <-]. exists ip. split; [reflexivity | now constructor]. }
    destruct (Ascii.eqb c ".") eqn:Ec.
    2:{ intros [= <- <- <-]. exists ip. split; [reflexivity | now constructor]. }
    apply Ascii.eqb_eq in Ec. subst c.
    destruct (digitpart _ r1) as [[[m' k'] r2]|] eqn:E2.
    + apply digitpart_sound in E2. destruct E2 as (fp & -> & Hfp & -> & ->).
      intros [= <- <- <-]. exists (ip ++ "."%char :: fp).
      split; [now rewrite <- app_assoc|].
      replace (digits_value (digits_value 0 (filter is_digit ip))
                            (filter is_digit fp))
        with (numeral_value (ip ++ fp))
        by (unfold numeral_value; now rewrite filter_app, digits_value_app).
      now apply nt_both.
    + intros [= <- <- <-]. exists (ip ++ ["."%char]).
      split; [now rewrite <- app_assoc | now constructor].
  - destruct r as [|c r1]; [discriminate|].
    destruct (Ascii.eqb c ".") eqn:Ec; [|discriminate].
    apply Ascii.eqb_eq in Ec. subst c. intros H.
    apply digitpart_sound in H. destruct H as (fp & -> & Hfp & -> & ->).
    exists ("."%char :: fp). split; [reflexivity | now apply nt_frac].
Qed.

Lemma exponent_complete (x : str) (e : Z) :
  exponent_text x e -> exponent x = Some e.
Proof.
  intros [|c sg neg ds Hc Hs Hds]; [reflexivity|].
  unfold exponent. rewrite Hc, Ascii.eqb_refl.
  destruct Hds as [d r Hd Hr].
  destruct (number_head_facts d (or_introl Hd)) as (Hp & Hm & _).
  rewrite (split_sign_of_text sg neg d r Hs Hp Hm).
  pose proof (digitpart_complete (d :: r) 0 [] (dp_intro d r Hd Hr) eq_refl)
    as E.
  rewrite app_nil_r in E. rewrite E. reflexivity.
Qed.

Lemma exponent_sound (x : str) (e : Z) :
  exponent x = Some e -> exponent_text x e.
Proof.
  destruct x as [|c t]; [intros [= <-]; constructor|].
  unfold exponent. destruct (Ascii.eqb (lower_char c) "e") eqn:Ec; [|discriminate].
  apply Ascii.eqb_eq in Ec.
  destruct (split_sign_text t) as (sg & Et & Hs).
  destruct (split_sign t) as [neg t']. simpl in Et, Hs.
  destruct (digitpart 0 t') as [[[v k] r]|] eqn:E; [|discriminate].
  destruct r; [|discriminate]. intros [= <-].
  apply digitpart_sound in E. destruct E as (ds & -> & Hds & -> & _).
  rewrite Et, app_nil_r. now apply et_some.
Qed.

(** The parser accepts exactly the texts of the grammar, with the value
    the grammar gives them. *)
Lemma py_float_spec (s : str) (v : pyfloat) :
  py_float s = Some v <-> float_text (strip s) v.
Proof.
  unfold py_float. cbv zeta. split.
  - destruct (split_sign_text (strip s)) as (sg & Es & Hs).
    destruct (split_sign (strip s)) as [neg r]. simpl in Es, Hs.
    rewrite Es.
    destruct (str_eqb (lower r) (lit "inf") ||
              str_eqb (lower r) (lit "infinity")) eqn:E1.
    { intros [= <-]. apply ft_inf; [exact Hs|].
      apply orb_true_iff in E1. rewrite !str_eqb_eq in E1. exact E1. }
    destruct (str_eqb (lower r) (lit "nan")) eqn:E2.
    { intros [= <-]. apply ft_nan with (neg := neg); [exact Hs|].
      now apply str_eqb_eq. }
    destruct (number r) as [[[m k] x]|] eqn:En; [|discriminate].
    destruct (exponent x) as [e|] eqn:Ee; [|discriminate].
    intros [= <-]. apply number_sound in En. destruct En as (n & -> & Hn).
    apply exponent_sound in Ee. now apply ft_num.
  - remember (strip s) as u eqn:Eu. intros H.
    destruct H as [sg neg w Hs Hw|sg neg w Hs Hw|sg neg n m k x e Hs Hn Hx].
    + assert (Hh : exists c t, w = c :: t /\ lower_char c = "i"%char).
      { destruct w as [|c t]; [destruct Hw; discriminate|].
        exists c, t. split; [reflexivity|].
        destruct Hw as [Hw|Hw]; now injection Hw. }
      destruct Hh as (c & t & -> & Hc).
      destruct (word_head_facts c (or_introl Hc)) as [Hp Hm].
      rewrite (split_sign_of_text sg neg c t Hs Hp Hm).
      assert (E : str_eqb (lower (c :: t)) (lit "inf") ||
                  str_eqb (lower (c :: t)) (lit "infinity") = true).
      { apply orb_true_iff. rewrite !str_eqb_eq. exact Hw. }
      now rewrite E.
    + assert (Hh : exists c t, w = c :: t /\ lower_char c = "n"%char).
      { destruct w as [|c t]; [discriminate|].
        exists c, t. split; [reflexivity | now injection Hw]. }
      destruct Hh as (c & t & -> & Hc).
      destruct (word_head_facts c (or_intror Hc)) as [Hp Hm].
      rewrite (split_sign_of_text sg neg c t Hs Hp Hm).
      rewrite Hw. reflexivity.
    + destruct (number_text_head n m k Hn) as (c & t & -> & Hc).
      destruct (number_head_facts c Hc) as (Hp & Hm & Hi & Hnn).
      cbn [app]. rewrite (split_sign_of_text sg neg c (t ++ x) Hs Hp Hm).
      destruct (not_a_word c (t ++ x) Hi Hnn) as (W1 & W2 & W3).
      rewrite W1, W2, W3. cbn [orb].
      change (c :: t ++ x) with ((c :: t) ++ x).
      rewrite (number_complete _ m k x Hn (exponent_text_head x e Hx)).
      now rewrite (exponent_complete x e Hx).
Qed.

(** The grammar gives a text at most one value. *)
Lemma float_text_functional (u : str) (v v' : pyfloat) :
  strip u = u -> float_text u v -> float_text u v' -> v = v'.
Proof.
  intros Eu H H'. rewrite <- Eu in H, H'.
  apply py_float_spec in H. apply py_float_spec in H'. congruence.
Qed.

End GrammarFacts.

(** C6 (as stated, refuted).  [to_num] does not only read decimals, and a
    residual that is no decimal is not always missing: "Infinity" holds
    no digit and is read as plus infinity, which is not the missing
    value, and "1_000" is read as one thousand. *)
Lemma C6_infinity_is_not_missing :
  residual (lit "Infinity") = lit "Infinity" /\
  existsb is_digit (residual (lit "Infinity")) = false /\
  to_num (Some (lit "Infinity")) = PosInf /\
  isnan (to_num (Some (lit "Infinity"))) = false /\
  to_num (Some (lit "1_000")) = Finite (inject_Z 1000).
Proof. repeat split. Qed.

(** C6 (amended).  [to_num] drops every "$" and ",", strips the white
    space around the text and reads the residual as [float] does.
    "$1,234.50" gives 1234.50; the missing cell, the empty string and
    "n/a" give the missing value; the result does not depend on "$" and
    "," in the text nor on white space around it.  A residual that is a
    text of the float grammar (optional sign, then digits with an
    optional point, fraction, exponent and single underscores between
    digits, or inf, infinity or nan in any letter case) gives the value
    the grammar gives it, the exact decimal value standing for the float
    that [float] returns (the binary64 value nearest to it, an infinity
    beyond the binary64 range); every other residual gives the missing
    value, and no input raises.  So the result is not missing exactly
    when the residual is such a text and is not the word nan; in
    particular a residual that holds a character which is not numeric is
    missing. *)
Theorem C6_to_num :
  same_value (to_num (Some (lit "$1,234.50"))) (Finite 1234.50) /\
  to_num None = NaN /\
  to_num (Some (lit EmptyString)) = NaN /\
  to_num (Some (lit "n/a")) = NaN /\
  (forall x : str,
     to_num (Some (remove_char "$" x)) = to_num (Some x) /\
     to_num (Some (remove_char "," x)) = to_num (Some x)) /\
  (forall a x b : str,
     forallb is_space a = true -> forallb is_space b = true ->
     to_num (Some (a ++ x ++ b)) = to_num (Some x)) /\
  (forall (x : str) (v : pyfloat),
     float_text (residual x) v -> to_num (Some x) = v) /\
  (forall x : str,
     (forall v, ~ float_text (residual x) v) -> to_num (Some x) = NaN) /\
  (forall x : str,
     isnan (to_num (Some x)) = false <->
     exists v, float_text (residual x) v /\ isnan v = false) /\
  (forall (x : str) (c : ascii),
     In c (residual x) -> numeric_char c = false -> to_num (Some x) = NaN).
Proof.
  destruct residual_insensitive as (Rd & Rc & Rs).
  assert (Hstrip : forall x, strip (residual x) = residual x)
    by (intros x; unfold residual; apply strip_idempotent).
  assert (Hspec : forall x v,
            py_float (residual x) = Some v <-> float_text (residual x) v).
  { intros x v. rewrite py_float_spec. now rewrite Hstrip. }
  split; [vm_compute; reflexivity|].
  split; [reflexivity|]. split; [reflexivity|]. split; [reflexivity|].
  split; [|split; [|split; [|split; [|split]]]].
  - intros x. unfold to_num. cbv zeta. now rewrite Rd, Rc.
  - intros a x b Ha Hb. unfold to_num. cbv zeta. now rewrite Rs.
  - intros x v H. apply Hspec in H. unfold to_num. cbv zeta. now rewrite H.
  - intros x H. unfold to_num. cbv zeta.
    destruct (py_float (residual x)) as [v|] eqn:E; [|reflexivity].
    apply Hspec in E. now apply H in E.
  - intros x. unfold to_num. cbv zeta.
    destruct (py_float (residual x)) as [v|] eqn:E.
    + apply Hspec in E. split.
      * intros Hv. exists v. split; assumption.
      * intros (v' & Hv' & Hn).
        now rewrite (float_text_functional (residual x) v v' (Hstrip x) E Hv').
    + split; [discriminate|]. intros (v' & Hv' & _).
      apply Hspec in Hv'. congruence.
  - intros x c Hin Hc. unfold to_num. cbv zeta.
    rewrite (py_float_rejects (residual x) c); [reflexivity | | exact Hc].
    now rewrite Hstrip.
Qed.

Lemma C6_witness :
  let x := lit " $-1,234.50e1 " in
  residual x = lit "-1234.50e1" /\
  float_text (residual x) (Finite (dec_value true 123450 (1 - 2))) /\
  to_num (Some x) = Finite (dec_value true 123450 (1 - 2)) /\
  same_value (to_num (Some x)) (Finite (-12345)) /\
  In "/"%char (residual (lit " $n/a, ")) /\
  numeric_char "/" = false /\
  to_num (Some (lit " $n/a, ")) = NaN /\
  to_num (Some (lit "  1234.5 ")) = to_num (Some (lit "1234.5")).
Proof.
  intros x.
  destruct C6_to_num as (_ & _ & _ & _ & _ & Hs & Hv & _ & _ & Hc).
  assert (Ht : float_text (residual x) (Finite (dec_value true 123450 (1 - 2)))).
  { change (residual x) with (["-"%char] ++ (lit "1234" ++ "."%char :: lit "50")
                              ++ ("e"%char :: [] ++ lit "1")).
    apply (ft_num ["-"%char] true (lit "1234" ++ "."%char :: lit "50")
                  123450 2 ("e"%char :: [] ++ lit "1") 1).
    - constructor.
    - apply (nt_both (lit "1234") (lit "50"));
        repeat first [ apply tt_end | apply dp_intro; [reflexivity|]
                     | apply tt_digit; [reflexivity|] ].
    - apply (et_some "e"%char [] false (lit "1")); [reflexivity | constructor|].
      apply dp_intro; [reflexivity | apply tt_end]. }
  split; [reflexivity|]. split; [exact Ht|].
  split; [apply (Hv x _ Ht)|].
  split; [rewrite (Hv x _ Ht); vm_compute; reflexivity|].
  split; [vm_compute; tauto|]. split; [reflexivity|]. split.
  - apply (Hc (lit " $n/a, ") "/"%char); [vm_compute; tauto | reflexivity].
  - apply (Hs (lit "  ") (lit "1234.5") (lit " ")); reflexivity.
Defined.
